(** * MERIDIAN frontend (src/frontend/app.js): a shallow embedding

    The live-progress client of the MERIDIAN investigation platform:
    - the frame decoder of [runInvestigation] (the [while (true)] loop over
      [reader.read()]),
    - the event handler [handleEvent] with the DOM state it writes,
    - [riskColor] and the recommendation derived in [loadPastInvestigation],
    - [renderNetworkGraph]: nodes, edges, layout and the SVG labels,
    - the click handler of [loadHistoryForCompare],
    - [loadPastInvestigation] and the select mode of the history grid,
    - [animateNumber], the news monitor ([startNewsWatch], [stopNewsWatch],
      [checkForNews]) and the file name of the downloaded report.

    Text is [String.string]; the byte chunks of the response body are
    modelled as the text [TextDecoder] gives for them (ASCII payloads, on
    which the decoder is the identity).  Scores, JS numbers compared against
    the break points 2.5, 5.0 and 7.5 (all exact binary fractions), are
    rationals [Q]; the graph geometry uses the real numbers, with [PI],
    [cos] and [sin] standing for [Math.PI], [Math.cos] and [Math.sin]. *)

From Stdlib Require Import List Bool Arith Lia String Ascii QArith Psatz DecimalString DecimalNat Reals Sorted.
Import ListNotations.
Open Scope nat_scope.
Open Scope string_scope.

(* ------------------------------------------------------------------ *)
(** ** Strings: the JS primitives the decoder uses *)

Module JsString.

Definition nl : ascii := Ascii.ascii_of_nat 10.
Definition nls : string := String nl EmptyString.

(** [s.split('\n')]: always at least one element. *)
Fixpoint split_nl (s : string) : list string :=
  match s with
  | EmptyString => [EmptyString]
  | String c s' =>
      let r := split_nl s' in
      if Ascii.eqb c nl then EmptyString :: r
      else match r with
           | x :: xs => String c x :: xs
           | [] => [String c EmptyString]
           end
  end.

(** The same split as a pair: the newline-terminated lines, and the
    unterminated remainder. *)
Fixpoint split_lines (s : string) : list string * string :=
  match s with
  | EmptyString => ([], EmptyString)
  | String c s' =>
      let (ls, r) := split_lines s' in
      if Ascii.eqb c nl then (EmptyString :: ls, r)
      else match ls with
           | [] => ([], String c r)
           | l :: ls' => (String c l :: ls', r)
           end
  end.

(** [lines.pop()] returns the last element and leaves the others. *)
Definition pop (l : list string) : list string * string :=
  (removelast l, last l EmptyString).

(** [s.slice(n)] *)
Fixpoint slice_from (n : nat) (s : string) : string :=
  match n, s with
  | 0, _ => s
  | S n', String _ s' => slice_from n' s'
  | S _, EmptyString => EmptyString
  end.

(** White space removed by [String.prototype.trim] in the ASCII range:
    tab, line feed, vertical tab, form feed, carriage return, space. *)
Definition is_ws (c : ascii) : bool :=
  let n := Ascii.nat_of_ascii c in
  ((9 <=? n)%nat && (n <=? 13)%nat) || (n =? 32)%nat.

Fixpoint trim_start (s : string) : string :=
  match s with
  | String c s' => if is_ws c then trim_start s' else s
  | EmptyString => EmptyString
  end.

Fixpoint trim_end (s : string) : string :=
  match s with
  | EmptyString => EmptyString
  | String c s' =>
      let r := trim_end s' in
      if is_ws c && String.eqb r EmptyString then EmptyString else String c r
  end.

Definition trim (s : string) : string := trim_end (trim_start s).

(** [line.startsWith(p)] *)
Definition startsWith (line p : string) : bool := String.prefix p line.

End JsString.

(* ------------------------------------------------------------------ *)
(** ** Frame decoder: the read loop of [runInvestigation] *)

Module FrameDecoder.
Import JsString.

Section Decoder.

(** The event type and [JSON.parse] (with its [try]/[catch]: [None] for a
    payload that does not parse). *)
Variable Ev : Type.
Variable parse : string -> option Ev.

(** The body of the [for] loop over [lines]. *)
Definition frame_of_line (line : string) : list Ev :=
  if negb (startsWith line "data: ") then []
  else
    let jsonStr := trim (slice_from 6 line) in
    if String.eqb jsonStr EmptyString then []
    else match parse jsonStr with
         | Some e => [e]
         | None => []
         end.

Definition frames_of_lines (lines : list string) : list Ev :=
  flat_map frame_of_line lines.

(** One iteration: [buffer += chunk; lines = buffer.split('\n');
    buffer = lines.pop();] then the lines are handled in order. *)
Definition step (buffer chunk : string) : list Ev * string :=
  let (lines, buffer') := pop (split_nl (buffer ++ chunk)) in
  (frames_of_lines lines, buffer').

(** The [while (true)] loop; when [result.done] the buffer is dropped. *)
Fixpoint decode_loop (buffer : string) (chunks : list string) : list Ev :=
  match chunks with
  | [] => []
  | chunk :: rest =>
      let (evs, buffer') := step buffer chunk in
      (evs ++ decode_loop buffer' rest)%list
  end.

Definition decode (chunks : list string) : list Ev := decode_loop EmptyString chunks.

End Decoder.

(** The byte stream the chunks are cut from. *)
Definition stream_of (chunks : list string) : string :=
  fold_right String.append EmptyString chunks.

End FrameDecoder.

(* ------------------------------------------------------------------ *)
(** ** The live view: [handleEvent] and the DOM state it writes *)

Module App.
Import JsString.

Definition dq : string := String (Ascii.ascii_of_nat 34) EmptyString.

(** [String(n)] for a non-negative integer. *)
Definition string_of_nat (n : nat) : string :=
  NilEmpty.string_of_uint (Nat.to_uint n).

(** [s.toLowerCase()] / [s.toUpperCase()] on ASCII letters. *)
Definition lower_ascii (c : ascii) : ascii :=
  let n := Ascii.nat_of_ascii c in
  if (65 <=? n)%nat && (n <=? 90)%nat then Ascii.ascii_of_nat (n + 32) else c.

Definition upper_ascii (c : ascii) : ascii :=
  let n := Ascii.nat_of_ascii c in
  if (97 <=? n)%nat && (n <=? 122)%nat then Ascii.ascii_of_nat (n - 32) else c.

Fixpoint map_string (f : ascii -> ascii) (s : string) : string :=
  match s with
  | EmptyString => EmptyString
  | String c s' => String (f c) (map_string f s')
  end.

Definition toLowerCase := map_string lower_ascii.
Definition toUpperCase := map_string upper_ascii.

(** [.replace(/ & /g, '-')] *)
Fixpoint replace_amp (s : string) : string :=
  match s with
  | String " " (String "&" (String " " s')) => String "-" (replace_amp s')
  | String c s' => String c (replace_amp s')
  | EmptyString => EmptyString
  end.

(** [.replace(/ /g, '-')] *)
Definition replace_space : string -> string :=
  map_string (fun c => if Ascii.eqb c " " then "-"%char else c).

(** [agentId(name)] *)
Definition agentId (name : string) : string :=
  replace_space (replace_amp (toLowerCase name)).

(** [s.split('\n\n')] *)
Fixpoint split_paragraphs (s : string) : list string :=
  match s with
  | EmptyString => [EmptyString]
  | String c s' =>
      let cons_head (r : list string) :=
        match r with
        | x :: xs => String c x :: xs
        | [] => [String c EmptyString]
        end in
      if Ascii.eqb c nl then
        match s' with
        | String d s'' =>
            if Ascii.eqb d nl then EmptyString :: split_paragraphs s''
            else cons_head (split_paragraphs s')
        | EmptyString => cons_head (split_paragraphs s')
        end
      else cons_head (split_paragraphs s')
  end.

(** Scores as JS numbers: [a < b] and [a >= b]. *)
Definition Qltb (a b : Q) : bool := negb (Qle_bool b a).
Definition Qgeb (a b : Q) : bool := Qle_bool b a.

(** [riskColor(score)] *)
Definition riskColor (score : Q) : string :=
  if Qltb score (5 # 2) then "var(--green)"
  else if Qltb score 5 then "var(--yellow)"
  else if Qltb score (15 # 2) then "var(--orange)"
  else "var(--red)".

(** The [proceed_recommendation] built by [loadPastInvestigation] from the
    stored [overall_risk_score]. *)
Definition recommendation_of_score (overall_risk_score : Q) : string :=
  if Qgeb overall_risk_score (15 # 2) then "REJECT"
  else if Qgeb overall_risk_score 5 then "INVESTIGATE_FURTHER"
  else if Qgeb overall_risk_score (5 # 2) then "CONDITIONAL"
  else "APPROVE".

(** *** Events, as parsed from the [data: ] payloads *)

Record AgentResult := {
  agent : string;
  risk_score : option Q;          (* [undefined] when absent *)
  findings : option string;
  red_flags : list string }.

Record FinalData := {
  overall_risk_score : Q;
  risk_level : string;
  proceed_recommendation : string;
  top_red_flags : list string;
  executive_summary : string }.

(** The [event.event] tag; [other_event] for a tag no [case] matches. *)
Inductive Event :=
| investigation_started (investigation_id : string)
| agent_started (name : string)
| agent_complete (r : AgentResult)
| investigation_complete (d : FinalData)
| agent_thinking (name thought : string)
| stream_end
| other_event (tag : string).

Definition TOTAL_AGENTS : nat := 7.
Definition SYNTHESIS : string := "Risk Synthesis".

(** *** The DOM state *)

(** One agent card: the class of its [.status-indicator], the [running]
    and [complete] classes of the [.agent-card], the score bar and the
    findings block. *)
Record Card := {
  indicator : string;
  card_running : bool;
  card_complete : bool;
  score_width : Q;
  score_background : string;
  findings_html : string }.

Record DomState := {
  completedAgents : nat;
  cards : list (string * Card);     (* element ids [status-<id>] etc. *)
  agentsCounter : string;
  counterGreen : bool;
  progressFill : Q;                 (* [fill.style.width], in percent *)
  progressText : string;
  progressVisible : bool;
  statusText : string;
  statusDotRunning : bool;
  statusDotError : bool;
  lastInvestigationData : option FinalData;
  riskBadge : string;
  gaugeTarget : Q;
  recommendationShown : option string;   (* class of [riskRecommendation] *)
  redFlagsShown : option (list string);
  summaryShown : option (list string) }.

(** Field updates of [DomState]. *)
Definition set_completed (n : nat) (s : DomState) : DomState :=
  {| completedAgents := n; cards := cards s; agentsCounter := agentsCounter s;
     counterGreen := counterGreen s; progressFill := progressFill s;
     progressText := progressText s; progressVisible := progressVisible s;
     statusText := statusText s; statusDotRunning := statusDotRunning s;
     statusDotError := statusDotError s;
     lastInvestigationData := lastInvestigationData s; riskBadge := riskBadge s;
     gaugeTarget := gaugeTarget s; recommendationShown := recommendationShown s;
     redFlagsShown := redFlagsShown s; summaryShown := summaryShown s |}.

Definition set_cards (cs : list (string * Card)) (s : DomState) : DomState :=
  {| completedAgents := completedAgents s; cards := cs; agentsCounter := agentsCounter s;
     counterGreen := counterGreen s; progressFill := progressFill s;
     progressText := progressText s; progressVisible := progressVisible s;
     statusText := statusText s; statusDotRunning := statusDotRunning s;
     statusDotError := statusDotError s;
     lastInvestigationData := lastInvestigationData s; riskBadge := riskBadge s;
     gaugeTarget := gaugeTarget s; recommendationShown := recommendationShown s;
     redFlagsShown := redFlagsShown s; summaryShown := summaryShown s |}.

Definition set_counter (text : string) (green : bool) (s : DomState) : DomState :=
  {| completedAgents := completedAgents s; cards := cards s; agentsCounter := text;
     counterGreen := green; progressFill := progressFill s;
     progressText := progressText s; progressVisible := progressVisible s;
     statusText := statusText s; statusDotRunning := statusDotRunning s;
     statusDotError := statusDotError s;
     lastInvestigationData := lastInvestigationData s; riskBadge := riskBadge s;
     gaugeTarget := gaugeTarget s; recommendationShown := recommendationShown s;
     redFlagsShown := redFlagsShown s; summaryShown := summaryShown s |}.

Definition set_progress (fill : Q) (text : string) (visible : bool) (s : DomState) : DomState :=
  {| completedAgents := completedAgents s; cards := cards s; agentsCounter := agentsCounter s;
     counterGreen := counterGreen s; progressFill := fill;
     progressText := text; progressVisible := visible;
     statusText := statusText s; statusDotRunning := statusDotRunning s;
     statusDotError := statusDotError s;
     lastInvestigationData := lastInvestigationData s; riskBadge := riskBadge s;
     gaugeTarget := gaugeTarget s; recommendationShown := recommendationShown s;
     redFlagsShown := redFlagsShown s; summaryShown := summaryShown s |}.

Definition set_status (text : string) (running error : bool) (s : DomState) : DomState :=
  {| completedAgents := completedAgents s; cards := cards s; agentsCounter := agentsCounter s;
     counterGreen := counterGreen s; progressFill := progressFill s;
     progressText := progressText s; progressVisible := progressVisible s;
     statusText := text; statusDotRunning := running; statusDotError := error;
     lastInvestigationData := lastInvestigationData s; riskBadge := riskBadge s;
     gaugeTarget := gaugeTarget s; recommendationShown := recommendationShown s;
     redFlagsShown := redFlagsShown s; summaryShown := summaryShown s |}.

Definition set_last (d : option FinalData) (s : DomState) : DomState :=
  {| completedAgents := completedAgents s; cards := cards s; agentsCounter := agentsCounter s;
     counterGreen := counterGreen s; progressFill := progressFill s;
     progressText := progressText s; progressVisible := progressVisible s;
     statusText := statusText s; statusDotRunning := statusDotRunning s;
     statusDotError := statusDotError s;
     lastInvestigationData := d; riskBadge := riskBadge s;
     gaugeTarget := gaugeTarget s; recommendationShown := recommendationShown s;
     redFlagsShown := redFlagsShown s; summaryShown := summaryShown s |}.

Definition set_report (badge : string) (gauge : Q) (recm : option string)
    (flags summary : option (list string)) (s : DomState) : DomState :=
  {| completedAgents := completedAgents s; cards := cards s; agentsCounter := agentsCounter s;
     counterGreen := counterGreen s; progressFill := progressFill s;
     progressText := progressText s; progressVisible := progressVisible s;
     statusText := statusText s; statusDotRunning := statusDotRunning s;
     statusDotError := statusDotError s;
     lastInvestigationData := lastInvestigationData s; riskBadge := badge;
     gaugeTarget := gauge; recommendationShown := recm;
     redFlagsShown := flags; summaryShown := summary |}.

(** *** The helpers of app.js *)

(** [updateProgress(completed, total, text)]: [pct = (completed / total) * 100]. *)
Definition updateProgress (completed total : nat) (text : string) (s : DomState) : DomState :=
  set_progress (inject_Z (Z.of_nat completed) / inject_Z (Z.of_nat total) * 100)
    text (progressVisible s) s.

(** [updateAgentCounter()] *)
Definition updateAgentCounter (s : DomState) : DomState :=
  let visible := Nat.min (completedAgents s) 6 in
  set_counter (string_of_nat visible ++ " / 6 complete")
    (if Nat.eqb visible 6 then true else counterGreen s) s.

(** [getElementById] on the card ids: a card that is absent is left alone. *)
Definition update_card (id : string) (f : Card -> Card)
    (cs : list (string * Card)) : list (string * Card) :=
  map (fun kc => if String.eqb (fst kc) id then (fst kc, f (snd kc)) else kc) cs.

Definition short_flag (flag : string) : string :=
  if (60 <? String.length flag)%nat then String.substring 0 57 flag ++ "..." else flag.

Definition agent_findings_html (text : string) (flags : list string) : string :=
  let firstPara := hd EmptyString (split_paragraphs text) in
  "<p>" ++ firstPara ++ "</p>" ++
  match flags with
  | [] => EmptyString
  | _ :: _ =>
      "<div class=" ++ dq ++ "agent-red-flags" ++ dq ++ ">" ++
      String.concat EmptyString
        (map (fun f => "<span class=" ++ dq ++ "flag-tag" ++ dq ++ ">" ++
                       short_flag f ++ "</span>") (firstn 3 flags)) ++
      "</div>"
  end.

(** The writes of [updateAgentCard(agentName, data)] on one card. *)
Definition complete_card (data : AgentResult) (c : Card) : Card :=
  {| indicator := "complete";
     card_running := false;
     card_complete := true;
     score_width := match risk_score data with
                    | Some r => r / 10 * 100
                    | None => score_width c
                    end;
     score_background := match risk_score data with
                         | Some r => riskColor r
                         | None => score_background c
                         end;
     findings_html := match findings data with
                      | Some f => if String.eqb f EmptyString then findings_html c
                                  else agent_findings_html f (red_flags data)
                      | None => findings_html c
                      end |}.

Definition updateAgentCard (agentName : string) (data : AgentResult) (s : DomState) : DomState :=
  set_cards (update_card (agentId agentName) (complete_card data) (cards s)) s.

(** The writes of [markAgentRunning(agentName)] on one card. *)
Definition running_card (c : Card) : Card :=
  {| indicator := "running"; card_running := true; card_complete := card_complete c;
     score_width := score_width c; score_background := score_background c;
     findings_html := findings_html c |}.

Definition markAgentRunning (agentName : string) (s : DomState) : DomState :=
  set_cards (update_card (agentId agentName) running_card (cards s)) s.

(** [recMap[proceed] || recMap['INVESTIGATE_FURTHER']], by its class. *)
Definition rec_class (proceed : string) : string :=
  if String.eqb proceed "REJECT" then "reject"
  else if String.eqb proceed "INVESTIGATE_FURTHER" then "investigate"
  else if String.eqb proceed "CONDITIONAL" then "conditional"
  else if String.eqb proceed "APPROVE" then "approve"
  else "investigate".

(** [showFinalResults(data)] *)
Definition showFinalResults (d : FinalData) (s : DomState) : DomState :=
  let s1 := set_progress (progressFill s) (progressText s) false s in
  set_report (risk_level d) (overall_risk_score d)
    (Some (rec_class (toUpperCase (proceed_recommendation d))))
    (match top_red_flags d with
     | [] => redFlagsShown s1
     | _ :: _ => Some (top_red_flags d)
     end)
    (if String.eqb (executive_summary d) EmptyString then summaryShown s1
     else Some (split_paragraphs (executive_summary d)))
    s1.

(** [handleEvent(event)]; the activity log and the typing animation of
    [agent_thinking] are not part of the state modelled here. *)
Definition handleEvent (e : Event) (s : DomState) : DomState :=
  match e with
  | investigation_started _ =>
      updateProgress 0 TOTAL_AGENTS "Running Entity Discovery agent..." s
  | agent_started a =>
      let s1 := markAgentRunning a s in
      if negb (String.eqb a SYNTHESIS) then
        updateProgress (completedAgents s1) TOTAL_AGENTS ("Running " ++ a ++ " agent...") s1
      else updateProgress (completedAgents s1) TOTAL_AGENTS "Synthesizing risk assessment..." s1
  | agent_complete r =>
      let s1 := set_completed (S (completedAgents s)) s in
      if String.eqb (agent r) SYNTHESIS then
        updateProgress TOTAL_AGENTS TOTAL_AGENTS
          "Risk synthesis complete. Finalizing report..." s1
      else
        let s2 := updateAgentCounter (updateAgentCard (agent r) r s1) in
        updateProgress (completedAgents s2) TOTAL_AGENTS (agent r ++ " complete") s2
  | investigation_complete d =>
      let s1 := showFinalResults d (set_last (Some d) s) in
      set_status "Complete" false (statusDotError s1) s1
  | agent_thinking _ _ => s
  | stream_end => s
  | other_event _ => s
  end.

Definition handleEvents (es : list Event) (s : DomState) : DomState :=
  fold_left (fun st e => handleEvent e st) es s.

(** The writes of [resetAgents()] on one card. *)
Definition reset_card (c : Card) : Card :=
  {| indicator := "waiting"; card_running := false; card_complete := false;
     score_width := 0; score_background := "var(--green)";
     findings_html := "Waiting..." |}.

(** [resetAgents()] *)
Definition resetAgents (s : DomState) : DomState :=
  let s1 := set_cards (map (fun kc => (fst kc, reset_card (snd kc))) (cards s))
                      (set_completed 0 s) in
  let s2 := set_report "PENDING" 0 None None None s1 in
  let s3 := set_progress 0 "Starting investigation..." true s2 in
  set_counter "0 / 6 complete" false s3.

(** The prologue of [runInvestigation(target)], before the fetch. *)
Definition start_investigation (target : string) (s : DomState) : DomState :=
  let s1 := resetAgents s in
  let s2 := set_status "Investigating..." true (statusDotError s1) s1 in
  updateProgress 0 TOTAL_AGENTS ("Investigating " ++ dq ++ target ++ dq ++ "...") s2.

(** [runInvestigation(target)]: the body is read as [chunks]; [failure] is
    [Some msg] when the fetch or a read throws [msg] after them, which the
    [catch] block handles. *)
Definition runInvestigation (parse : string -> option Event) (target : string)
    (chunks : list string) (failure : option string) (s : DomState) : DomState :=
  let s1 := start_investigation target s in
  let s2 := handleEvents (FrameDecoder.decode Event parse chunks) s1 in
  match failure with
  | None => s2
  | Some msg =>
      let s3 := set_status "Error" false true s2 in
      updateProgress 0 1 ("Error: " ++ msg) s3
  end.

(** The six agent cards of index.html, keyed by [agentId]. *)
Definition specialist_ids : list string :=
  ["entity-discovery"; "financial-signal"; "legal-intelligence";
   "executive-background"; "sentiment-narrative"; "geo-jurisdiction"].

Definition blank_card : Card := reset_card
  {| indicator := ""; card_running := false; card_complete := false;
     score_width := 0; score_background := ""; findings_html := "" |}.

(** A page before any investigation. *)
Definition page : DomState :=
  {| completedAgents := 0;
     cards := map (fun id => (id, blank_card)) specialist_ids;
     agentsCounter := "0 / 6 complete"; counterGreen := false;
     progressFill := 0; progressText := ""; progressVisible := false;
     statusText := "Ready"; statusDotRunning := false; statusDotError := false;
     lastInvestigationData := None; riskBadge := "PENDING"; gaugeTarget := 0;
     recommendationShown := None; redFlagsShown := None; summaryShown := None |}.

(** *** Observers used to state properties of the view *)

Definition counter_text (k : nat) : string := string_of_nat k ++ " / 6 complete".

Definition count_complete_cards (cs : list (string * Card)) : nat :=
  List.length (filter (fun kc => card_complete (snd kc)) cs).

Definition is_agent_complete (e : Event) : bool :=
  match e with agent_complete _ => true | _ => false end.

Definition is_investigation_complete (e : Event) : bool :=
  match e with investigation_complete _ => true | _ => false end.

Definition count_agent_complete (es : list Event) : nat :=
  List.length (filter is_agent_complete es).

(** The recommendation tier that goes with each [riskColor] tier. *)
Definition color_recommendation (color : string) : string :=
  if String.eqb color "var(--red)" then "REJECT"
  else if String.eqb color "var(--orange)" then "INVESTIGATE_FURTHER"
  else if String.eqb color "var(--yellow)" then "CONDITIONAL"
  else "APPROVE".

(** An [agent_complete] payload with a score and one paragraph of findings. *)
Definition result_of (name : string) (score : Q) : AgentResult :=
  {| agent := name; risk_score := Some score; findings := Some "Findings.";
     red_flags := [] |}.

Definition specialist_names : list string :=
  ["Entity Discovery"; "Financial Signal"; "Legal Intelligence";
   "Executive Background"; "Sentiment & Narrative"; "Geo & Jurisdiction"].

Definition final_of (score : Q) (level recm : string) : FinalData :=
  {| overall_risk_score := score; risk_level := level;
     proceed_recommendation := recm; top_red_flags := [];
     executive_summary := "Summary." |}.

End App.

(* ------------------------------------------------------------------ *)
(** ** [renderNetworkGraph]: nodes, edges and layout *)

Module Graph.

(** An entity of the entity-discovery result; [None] for a missing field. *)
Record Entity := {
  name : option string;
  entity_name : option string;
  jurisdiction : option string }.

Record RawData := {
  primary_entity : Entity;          (* [raw.primary_entity || {}] *)
  subsidiaries : list Entity;       (* [raw.subsidiaries || []] *)
  related_entities : list Entity }. (* [raw.related_entities || []] *)

Record GraphNode := {
  node_id : string;
  node_label : string;
  node_type : string;
  node_jurisdiction : string }.

(** [a || b] on optional strings: the empty string is falsy. *)
Definition or_else (a : option string) (b : string) : string :=
  match a with
  | Some v => if String.eqb v EmptyString then b else v
  | None => b
  end.

Definition truthy (a : option string) : bool :=
  match a with
  | Some v => negb (String.eqb v EmptyString)
  | None => false
  end.

Definition no_entity : Entity :=
  {| name := None; entity_name := None; jurisdiction := None |}.

(** [arr.forEach(function(x, i) { ... })] building one element per entry. *)
Fixpoint map_index {A B : Type} (f : nat -> A -> B) (k : nat) (l : list A) : list B :=
  match l with
  | [] => []
  | x :: xs => f k x :: map_index f (S k) xs
  end.

Definition primary_node (p : Entity) : GraphNode :=
  {| node_id := "primary"; node_label := or_else (name p) "Unknown";
     node_type := "primary"; node_jurisdiction := or_else (jurisdiction p) "" |}.

Definition sub_node (i : nat) (sub : Entity) : GraphNode :=
  {| node_id := "sub-" ++ App.string_of_nat i;
     node_label := or_else (name sub)
                     (or_else (entity_name sub) ("Sub " ++ App.string_of_nat (i + 1)));
     node_type := "subsidiary"; node_jurisdiction := or_else (jurisdiction sub) "" |}.

Definition rel_node (i : nat) (rel : Entity) : GraphNode :=
  {| node_id := "rel-" ++ App.string_of_nat i;
     node_label := or_else (name rel)
                     (or_else (entity_name rel) ("Related " ++ App.string_of_nat (i + 1)));
     node_type := "related"; node_jurisdiction := or_else (jurisdiction rel) "" |}.

Definition graph_nodes (raw : RawData) : list GraphNode :=
  primary_node (primary_entity raw)
    :: (map_index sub_node 0 (subsidiaries raw) ++ map_index rel_node 0 (related_entities raw))%list.

Definition graph_edges (raw : RawData) : list (string * string) :=
  (map_index (fun i _ => ("primary", ("sub-" ++ App.string_of_nat i)%string)) 0 (subsidiaries raw) ++
   map_index (fun i _ => ("primary", ("rel-" ++ App.string_of_nat i)%string)) 0 (related_entities raw))%list.

Section Layout.
Local Open Scope R_scope.

(** Lines 893-907: [width], [height], [cx], [cy], [radius] and the
    positions; [clientWidth] is the container width in pixels (0 when the
    container is not laid out). *)
Definition area_width (clientWidth : nat) : R :=
  INR (if Nat.eqb clientWidth 0 then 700 else clientWidth).

Definition area_height (node_count : nat) : R := Rmax 320 (INR node_count * 30).

Definition child_angle (i n : nat) : R := 2 * PI * INR i / INR n - PI / 2.

Definition layout (clientWidth : nat) (nodes : list GraphNode)
    : R * R * list (GraphNode * (R * R)) :=
  let width := area_width clientWidth in
  let height := area_height (List.length nodes) in
  let cx := width / 2 in
  let cy := height / 2 in
  let radius := Rmin width height * (35 / 100) in
  match nodes with
  | [] => (width, height, [])
  | primary :: childNodes =>
      (width, height,
       (primary, (cx, cy)) ::
       map_index (fun i n =>
                    let angle := child_angle i (List.length childNodes) in
                    (n, (cx + radius * cos angle, cy + radius * sin angle)))
                 0 childNodes)
  end.

End Layout.

Inductive Rendering :=
| Hidden                                   (* [container.style.display = 'none'] *)
| NoRelationships                          (* the [network-empty] placeholder *)
| Diagram (width height : R) (placed : list (GraphNode * (R * R)))
          (edges : list (string * string)).

(** [renderNetworkGraph(entityFinding)] up to the SVG text it builds from
    the placed nodes and the edges. *)
Definition renderNetworkGraph (clientWidth : nat) (raw : RawData) : Rendering :=
  if negb (truthy (name (primary_entity raw))) && Nat.eqb (List.length (subsidiaries raw)) 0
  then Hidden
  else
    let nodes := graph_nodes raw in
    if Nat.eqb (List.length nodes) 1 then NoRelationships
    else
      let '(w, h, placed) := layout clientWidth nodes in
      Diagram w h placed (graph_edges raw).

End Graph.

(* ------------------------------------------------------------------ *)
(** ** The compare-mode click handler of [loadHistoryForCompare] *)

Module Compare.

Record CompareState := {
  compareMode : bool;             (* [_compareMode] *)
  compareSelected : list nat }.   (* [_compareSelected], indices *)

(** [arr.splice(arr.indexOf(x), 1)] for an [x] that is present. *)
Fixpoint remove_first (x : nat) (l : list nat) : list nat :=
  match l with
  | [] => []
  | y :: ys => if Nat.eqb x y then ys else y :: remove_first x ys
  end.

(** The [if]/[else if] of the listener: deselect, or select while fewer
    than two are held. *)
Definition toggle_selection (idx : nat) (sel : list nat) : list nat :=
  if existsb (Nat.eqb idx) sel then remove_first idx sel
  else if (List.length sel <? 2)%nat then (sel ++ [idx])%list
  else sel.

(** The listener of the card for record [idx]; the second component is the
    pair of records passed to [showComparison], which sets [_compareMode]
    to [false]. *)
Definition compare_click (idx : nat) (st : CompareState)
    : CompareState * option (nat * nat) :=
  let sel' := toggle_selection idx (compareSelected st) in
  if Nat.eqb (List.length sel') 2 then
    ({| compareMode := false; compareSelected := sel' |},
     Some (nth 0 sel' 0, nth 1 sel' 0))
  else ({| compareMode := compareMode st; compareSelected := sel' |}, None).

(** The state set by the compare-mode button. *)
Definition compare_start : CompareState :=
  {| compareMode := true; compareSelected := [] |}.

End Compare.

(* ------------------------------------------------------------------ *)
(** ** The SVG text of [renderNetworkGraph] *)

Module GraphSvg.
Import Graph.

(** Line 931: the label under a node.  Lengths are those of the ASCII text
    modelled here (one UTF-16 code unit per character). *)
Definition svg_label (label : string) : string :=
  if (18 <? String.length label)%nat then String.substring 0 16 label ++ "..." else label.

(** Line 937: the jurisdiction tag. *)
Definition jur_label (jurisdiction : string) : string :=
  if (12 <? String.length jurisdiction)%nat
  then String.substring 0 10 jurisdiction ++ ".." else jurisdiction.

End GraphSvg.

(* ------------------------------------------------------------------ *)
(** ** [loadPastInvestigation]: a stored investigation shown again *)

Module History.
Import JsString App.

(** An entry of [inv.agent_findings]. *)
Record StoredFinding := {
  agent_name : string;
  risk_contribution : option Q;
  stored_findings : option string;
  stored_red_flags : list string }.    (* [af.red_flags || []] *)

(** A row of [/investigations]; [None] for a missing field. *)
Record Investigation := {
  target_name : string;
  investigation_id : string;
  inv_overall_risk_score : option Q;
  inv_risk_level : option string;
  inv_summary : option string;
  inv_red_flags : list string;          (* [inv.red_flags || []] *)
  agent_findings : list StoredFinding }. (* [inv.agent_findings || []] *)

(** The body of [findings.forEach(function(af) { ... })]. *)
Definition load_finding (st : DomState) (af : StoredFinding) : DomState :=
  if String.eqb (agent_name af) SYNTHESIS then st
  else
    let st1 := updateAgentCard (agent_name af)
                 {| agent := agent_name af; risk_score := risk_contribution af;
                    findings := stored_findings af; red_flags := stored_red_flags af |} st in
    set_completed (S (completedAgents st1)) st1.

(** [inv.overall_risk_score || 0]; a missing score also fails every [>=]
    test of [proceed_recommendation], as 0 does. *)
Definition stored_score (inv : Investigation) : Q :=
  match inv_overall_risk_score inv with Some q => q | None => 0 end.

(** [finalData] *)
Definition final_data (inv : Investigation) : FinalData :=
  {| overall_risk_score := stored_score inv;
     risk_level := Graph.or_else (inv_risk_level inv) "UNKNOWN";
     executive_summary := Graph.or_else (inv_summary inv) EmptyString;
     top_red_flags := inv_red_flags inv;
     proceed_recommendation := recommendation_of_score (stored_score inv) |}.

(** [loadPastInvestigation(inv)]; [_lastInvestigationData] is [finalData]
    itself, so it is what [showFinalResults] is given. *)
Definition loadPastInvestigation (inv : Investigation) (s : DomState) : DomState :=
  let s1 := resetAgents s in
  let s2 := set_progress (progressFill s1) (progressText s1) false s1 in
  let s3 := fold_left load_finding (agent_findings inv) s2 in
  let s4 := updateAgentCounter s3 in
  showFinalResults (final_data inv) (set_last (Some (final_data inv)) s4).

Definition count_specialist_findings (fs : list StoredFinding) : nat :=
  List.length (filter (fun af => negb (String.eqb (agent_name af) SYNTHESIS)) fs).

(** *** Select mode of the history grid *)

Record SelectState := {
  selectMode : bool;              (* [_selectMode] *)
  selectedIds : list string;      (* [_selectedIds], in insertion order *)
  selectedCount : string }.       (* [#selectedCount] *)

(** [Set.prototype.has], [delete] and [add]. *)
Definition set_has (x : string) (l : list string) : bool := existsb (String.eqb x) l.
Definition set_delete (x : string) (l : list string) : list string :=
  filter (fun y => negb (String.eqb y x)) l.
Definition set_add (x : string) (l : list string) : list string :=
  if set_has x l then l else (l ++ [x])%list.

(** [toggleSelectMode(on)] *)
Definition toggleSelectMode (on : bool) (st : SelectState) : SelectState :=
  {| selectMode := on; selectedIds := []; selectedCount := "0" |}.

(** The click listener of a history card in select mode, with
    [updateSelectedCount()]. *)
Definition select_click (invId : string) (st : SelectState) : SelectState :=
  let ids := if set_has invId (selectedIds st) then set_delete invId (selectedIds st)
             else set_add invId (selectedIds st) in
  {| selectMode := selectMode st; selectedIds := ids;
     selectedCount := string_of_nat (List.length ids) |}.

Definition select_clicks (ids : list string) (st : SelectState) : SelectState :=
  fold_left (fun st id => select_click id st) ids st.

(** The listener of [deleteSelectedBtn]: the ids of the [DELETE] requests
    sent, and the state after; [confirmed] is the answer to [confirm], and
    [all_resolved] tells whether [Promise.all] resolves. A [fetch] rejects
    on a network error (an HTTP error status still resolves it); then the
    [await] throws and [toggleSelectMode(false)] is never reached. *)
Definition delete_selected (confirmed all_resolved : bool) (st : SelectState)
    : list string * SelectState :=
  if Nat.eqb (List.length (selectedIds st)) 0 then ([], st)
  else if negb confirmed then ([], st)
  else if all_resolved then (selectedIds st, toggleSelectMode false st)
  else (selectedIds st, st).

Definition count_clicks (x : string) (ids : list string) : nat :=
  List.length (filter (String.eqb x) ids).

End History.

(* ------------------------------------------------------------------ *)
(** ** Compare mode over a sequence of clicks *)

Module CompareRun.
Import Compare.

(** The clicks on the cards, in order, with the pairs passed to
    [showComparison]. *)
Fixpoint compare_clicks (idxs : list nat) (st : CompareState)
    : CompareState * list (nat * nat) :=
  match idxs with
  | [] => (st, [])
  | i :: rest =>
      let (st1, out) := compare_click i st in
      let (st2, outs) := compare_clicks rest st1 in
      (st2, match out with Some p => p :: outs | None => outs end)
  end.

End CompareRun.

(* ------------------------------------------------------------------ *)
(** ** [animateNumber] *)

Module Animate.

(** [Math.max(1, Math.ceil(target / 30))] for a count [target >= 0]. *)
Definition animate_step (target : nat) : nat := Nat.max 1 ((target + 29) / 30).

(** The values written to [el.textContent] by the interval callback, one
    per tick, from [current]; the interval is cleared on the tick that
    reaches [target].  [fuel] bounds the ticks looked at. *)
Fixpoint animate_ticks (fuel target step current : nat) : list nat :=
  match fuel with
  | 0 => []
  | S f =>
      let current' := current + step in
      if (target <=? current')%nat then [target]
      else current' :: animate_ticks f target step current'
  end.

(** [animateNumber(el, target)], watched for [fuel] ticks. *)
Definition animateNumber (fuel target : nat) : list nat :=
  animate_ticks fuel target (animate_step target) 0.

End Animate.

(* ------------------------------------------------------------------ *)
(** ** The news monitor *)

Module NewsWatch.

(** The globals [_newsWatchInterval], [_newsWatchTarget], [_lastNewsCount];
    the timers alive in the page; the alerts of [#newsAlerts], newest first
    (the target and [diff]). *)
Record WatchState := {
  newsWatchInterval : option nat;
  newsWatchTarget : option string;
  lastNewsCount : nat;
  nextTimer : nat;
  liveTimers : list nat;
  newsAlerts : list (string * nat) }.

(** [stopNewsWatch()] *)
Definition stopNewsWatch (st : WatchState) : WatchState :=
  {| newsWatchInterval := None; newsWatchTarget := None;
     lastNewsCount := lastNewsCount st; nextTimer := nextTimer st;
     liveTimers := match newsWatchInterval st with
                   | Some h => filter (fun t => negb (Nat.eqb t h)) (liveTimers st)
                   | None => liveTimers st
                   end;
     newsAlerts := newsAlerts st |}.

(** [startNewsWatch(target)] (the panel present, so [#newsAlerts] is
    emptied): the request of the initial [checkForNews] is in flight; its
    answer is a [news_result] below. *)
Definition startNewsWatch (target : string) (st : WatchState) : WatchState :=
  let st1 := stopNewsWatch st in
  {| newsWatchInterval := Some (nextTimer st1); newsWatchTarget := Some target;
     lastNewsCount := 0; nextTimer := S (nextTimer st1);
     liveTimers := nextTimer st1 :: liveTimers st1;
     newsAlerts := [] |}.

(** The part of [checkForNews(target)] after its [fetch] answered with
    [values[0] || 0 = total] (the panel present). *)
Definition news_result (target : string) (total : nat) (st : WatchState) : WatchState :=
  {| newsWatchInterval := newsWatchInterval st; newsWatchTarget := newsWatchTarget st;
     lastNewsCount := total; nextTimer := nextTimer st; liveTimers := liveTimers st;
     newsAlerts := if (0 <? lastNewsCount st)%nat && (lastNewsCount st <? total)%nat
                   then (target, total - lastNewsCount st) :: newsAlerts st
                   else newsAlerts st |}.

Inductive WatchOp :=
| StartWatch (target : string)
| StopWatch
| NewsResult (target : string) (total : nat).

Definition watch_op (st : WatchState) (op : WatchOp) : WatchState :=
  match op with
  | StartWatch t => startNewsWatch t st
  | StopWatch => stopNewsWatch st
  | NewsResult t n => news_result t n st
  end.

Definition watch_run (ops : list WatchOp) (st : WatchState) : WatchState :=
  fold_left watch_op ops st.

(** The page on load. *)
Definition watch_init : WatchState :=
  {| newsWatchInterval := None; newsWatchTarget := None; lastNewsCount := 0;
     nextTimer := 1; liveTimers := []; newsAlerts := [] |}.

Definition sum_alerts (l : list (string * nat)) : nat := fold_right (fun a n => snd a + n) 0 l.

End NewsWatch.

(* ------------------------------------------------------------------ *)
(** ** The file name of the downloaded report *)

Module Download.
Import App.

Definition is_alnum (c : ascii) : bool :=
  let n := Ascii.nat_of_ascii c in
  ((48 <=? n)%nat && (n <=? 57)%nat) || ((65 <=? n)%nat && (n <=? 90)%nat) ||
  ((97 <=? n)%nat && (n <=? 122)%nat).

(** The replacement of [/[^a-zA-Z0-9]/g] by ['_'], on one character. *)
Definition safe_char (c : ascii) : ascii := if is_alnum c then c else "_"%char.

(** [(_lastInvestigationData.target || 'report').replace(/[^a-zA-Z0-9]/g, '_')] *)
Definition safeName (target : option string) : string :=
  map_string safe_char (Graph.or_else target "report").

(** [a.download] for the date part [isoDate]. *)
Definition report_file_name (target : option string) (isoDate : string) : string :=
  "MERIDIAN_Report_" ++ safeName target ++ "_" ++ isoDate ++ ".txt".

End Download.

(* ------------------------------------------------------------------ *)
(** ** Observers used to state properties of the helpers *)

Module Observe.
Import JsString App.

(** The number of line feeds in a text. *)
Definition count_newlines (s : string) : nat :=
  List.length (filter (Ascii.eqb nl) (list_ascii_of_string s)).

(** [p] holds of every character. *)
Fixpoint all_chars (p : ascii -> bool) (s : string) : bool :=
  match s with
  | EmptyString => true
  | String c s' => p c && all_chars p s'
  end.

Definition is_upper (c : ascii) : bool :=
  let n := Ascii.nat_of_ascii c in (65 <=? n)%nat && (n <=? 90)%nat.

(** The severity order of the [riskColor] tiers and of the
    recommendations. *)
Definition color_rank (color : string) : nat :=
  if String.eqb color "var(--green)" then 0
  else if String.eqb color "var(--yellow)" then 1
  else if String.eqb color "var(--orange)" then 2
  else 3.

Definition recommendation_rank (recm : string) : nat :=
  if String.eqb recm "APPROVE" then 0
  else if String.eqb recm "CONDITIONAL" then 1
  else if String.eqb recm "INVESTIGATE_FURTHER" then 2
  else 3.

(** The four classes of [riskRecommendation]. *)
Definition recommendation_classes : list string :=
  ["reject"; "investigate"; "conditional"; "approve"].

(** The timer handle a variable holds, as a list. *)
Definition timers_of (h : option nat) : list nat :=
  match h with Some t => [t] | None => [] end.

End Observe.

(* ------------------------------------------------------------------ *)
(** ** Concrete sessions the properties are tried on *)

Module Scenarios.
Import JsString App.

(** A session that has started and received one specialist result. *)
Definition s0 : DomState := start_investigation "Acme" page.
Definition r0 : AgentResult := result_of "Financial Signal" (4 # 1).
Definition once : DomState := handleEvent (agent_complete r0) s0.
Definition twice : DomState := handleEvent (agent_complete r0) once.

(** A session that has received its [investigation_started] only. *)
Definition running : DomState :=
  handleEvents [investigation_started "x1"] (start_investigation "Acme" page).

(** A session whose only completion is the synthesis one. *)
Definition synth_done : DomState :=
  handleEvent (agent_complete (result_of SYNTHESIS (89 # 10))) (start_investigation "Acme" page).

(** Six specialist completions, then [investigation_complete]. *)
Definition six_then_final : DomState :=
  handleEvents
    (map (fun n => agent_complete (result_of n (5 # 1))) specialist_names ++
     [investigation_complete (final_of (89 # 10) "CRITICAL" "REJECT")])%list
    (start_investigation "Acme" page).

(** A toy [JSON.parse] and a stream cut inside its frames. *)
Definition parse_demo (str : string) : option Event :=
  if String.eqb str "end" then Some stream_end else Some (investigation_started str).

Definition chunks_demo : list string :=
  ["data: x"; "1" ++ nls ++ "data: e"; "nd" ++ nls].

(** A nameless primary with no subsidiary and one related entity. *)
Definition related_only : Graph.RawData :=
  {| Graph.primary_entity := Graph.no_entity;
     Graph.subsidiaries := [];
     Graph.related_entities :=
       [{| Graph.name := Some "Offshore Ltd"; Graph.entity_name := None;
           Graph.jurisdiction := Some "BVI" |}] |}.

End Scenarios.

(* ================================================================== *)
(** * Proofs *)

Module DecoderFacts.
Import JsString FrameDecoder.

Lemma string_app_nil_r (s : string) : (s ++ EmptyString)%string = s.
Proof. induction s as [|c s IH]; simpl; [reflexivity|now rewrite IH]. Qed.

Lemma string_app_assoc (a b c : string) : (a ++ (b ++ c))%string = ((a ++ b) ++ c)%string.
Proof. induction a as [|x a IH]; simpl; [reflexivity|now rewrite IH]. Qed.

Lemma split_nl_lines (s : string) :
  split_nl s = (fst (split_lines s) ++ [snd (split_lines s)])%list.
Proof.
  induction s as [|c s IH]; [reflexivity|].
  simpl. rewrite IH. destruct (split_lines s) as [ls r]. simpl.
  destruct (Ascii.eqb c nl); [reflexivity|].
  destruct ls; reflexivity.
Qed.

Lemma pop_split_nl (s : string) : pop (split_nl s) = split_lines s.
Proof.
  unfold pop. rewrite split_nl_lines.
  rewrite removelast_last, last_last. destruct (split_lines s); reflexivity.
Qed.

Lemma split_lines_app (a b : string) :
  split_lines (a ++ b) =
  (let (la, ra) := split_lines a in
   let (lr, rr) := split_lines (ra ++ b) in ((la ++ lr)%list, rr)).
Proof.
  induction a as [|c a IH].
  - simpl. destruct (split_lines b); reflexivity.
  - simpl. rewrite IH. destruct (split_lines a) as [la ra].
    destruct (split_lines (ra ++ b)) as [lr rr] eqn:Hr.
    destruct (Ascii.eqb c nl) eqn:Hc; [rewrite Hr; reflexivity|].
    destruct la as [|l la'].
    + simpl. rewrite Hc, Hr. simpl in IH. destruct lr; reflexivity.
    + rewrite Hr. reflexivity.
Qed.

Lemma split_lines_rest (s : string) : fst (split_lines (snd (split_lines s))) = [].
Proof.
  induction s as [|c s IH]; [reflexivity|].
  simpl. destruct (split_lines s) as [ls r]. simpl in IH.
  destruct (Ascii.eqb c nl) eqn:Hc; [exact IH|].
  destruct ls; simpl; [|exact IH].
  rewrite Hc. destruct (split_lines r) as [lr rr]. simpl in IH. subst. reflexivity.
Qed.

Section WithParse.
Variable Ev : Type.
Variable parse : string -> option Ev.

Lemma frames_of_lines_app (l1 l2 : list string) :
  frames_of_lines Ev parse (l1 ++ l2) =
  (frames_of_lines Ev parse l1 ++ frames_of_lines Ev parse l2)%list.
Proof. unfold frames_of_lines. apply flat_map_app. Qed.

Lemma decode_loop_spec (chunks : list string) (buffer : string) :
  fst (split_lines buffer) = [] ->
  decode_loop Ev parse buffer chunks =
  frames_of_lines Ev parse (fst (split_lines (buffer ++ stream_of chunks))).
Proof.
  revert buffer. induction chunks as [|ch rest IH]; intros buffer Hb.
  - simpl. rewrite string_app_nil_r, Hb. reflexivity.
  - cbn [decode_loop]. unfold step. rewrite pop_split_nl.
    change (stream_of (ch :: rest)) with (ch ++ stream_of rest)%string.
    rewrite string_app_assoc, (split_lines_app (buffer ++ ch)).
    destruct (split_lines (buffer ++ ch)) as [L r] eqn:Hs.
    cbv iota beta. rewrite (IH r).
    + destruct (split_lines (r ++ stream_of rest)) as [lr rr].
      simpl. symmetry. apply frames_of_lines_app.
    + pose proof (split_lines_rest (buffer ++ ch)) as H. rewrite Hs in H. exact H.
Qed.

(** The loop, started on an empty buffer, yields the frames of the complete
    lines of the whole stream. *)
Lemma decode_stream (chunks : list string) :
  decode Ev parse chunks =
  frames_of_lines Ev parse (fst (split_lines (stream_of chunks))).
Proof. unfold decode. apply decode_loop_spec. reflexivity. Qed.
End WithParse.
End DecoderFacts.

(** ** C1: chunking does not change the decoded frames *)

(** C1. For any two ways of cutting the same stream into chunks (mid-frame,
    mid-marker, one character at a time, ...) the read loop of
    [runInvestigation], which appends each chunk to one pending buffer,
    splits off the newline-terminated lines, keeps the unterminated rest
    and parses only the lines starting with [data: ], yields the same
    sequence of decoded frames. *)
Theorem decode_chunking_invariant (Ev : Type) (parse : string -> option Ev)
    (chunks1 chunks2 : list string)
    (Hsame : FrameDecoder.stream_of chunks1 = FrameDecoder.stream_of chunks2) :
  FrameDecoder.decode Ev parse chunks1 = FrameDecoder.decode Ev parse chunks2.
Proof.
  rewrite (DecoderFacts.decode_stream Ev parse chunks1),
          (DecoderFacts.decode_stream Ev parse chunks2), Hsame.
  reflexivity.
Qed.

Lemma decode_chunking_invariant_witness :
  FrameDecoder.stream_of ["data: {a}" ++ JsString.nls ++ "da"; "ta: b" ++ JsString.nls ++ ": ping"; JsString.nls]
  = FrameDecoder.stream_of
      (map (fun c => String c EmptyString)
           (list_ascii_of_string ("data: {a}" ++ JsString.nls ++ "data: b" ++ JsString.nls ++ ": ping" ++ JsString.nls)))
  /\ FrameDecoder.decode string (fun s => Some s)
       ["data: {a}" ++ JsString.nls ++ "da"; "ta: b" ++ JsString.nls ++ ": ping"; JsString.nls]
     = FrameDecoder.decode string (fun s => Some s)
       (map (fun c => String c EmptyString)
            (list_ascii_of_string ("data: {a}" ++ JsString.nls ++ "data: b" ++ JsString.nls ++ ": ping" ++ JsString.nls))).
Proof.
  split; [reflexivity|].
  apply decode_chunking_invariant. reflexivity.
Defined.

(** ** Facts about [handleEvent] *)

Module AppFacts.
Import JsString App.

Lemma handleEvent_completed (e : Event) (s : DomState) :
  completedAgents (handleEvent e s) =
  (if is_agent_complete e then 1 else 0) + completedAgents s.
Proof.
  destruct e; cbn; try reflexivity.
  - destruct (negb (String.eqb name SYNTHESIS)); reflexivity.
  - destruct (String.eqb (agent r) SYNTHESIS); reflexivity.
Qed.

Lemma handleEvents_completed (es : list Event) (s : DomState) :
  completedAgents (handleEvents es s) = count_agent_complete es + completedAgents s.
Proof.
  revert s. induction es as [|e es IH]; intros s; [reflexivity|].
  unfold handleEvents in *. cbn [fold_left]. rewrite IH, handleEvent_completed.
  unfold count_agent_complete. cbn [filter].
  destruct (is_agent_complete e); cbn [List.length]; lia.
Qed.

Lemma handleEvent_statusText (e : Event) (s : DomState) :
  statusText (handleEvent e s) =
  if is_investigation_complete e then "Complete" else statusText s.
Proof.
  destruct e; cbn; try reflexivity.
  - destruct (negb (String.eqb name SYNTHESIS)); reflexivity.
  - destruct (String.eqb (agent r) SYNTHESIS); reflexivity.
Qed.

Lemma handleEvents_statusText (es : list Event) (s : DomState) :
  forallb (fun e => negb (is_investigation_complete e)) es = true ->
  statusText (handleEvents es s) = statusText s.
Proof.
  revert s. induction es as [|e es IH]; intros s H; [reflexivity|].
  cbn [forallb] in H. apply andb_prop in H as [He Hes].
  unfold handleEvents in *. cbn [fold_left]. rewrite IH by exact Hes.
  rewrite handleEvent_statusText. destruct (is_investigation_complete e); easy.
Qed.

Lemma handleEvent_counter (e : Event) (s : DomState) :
  agentsCounter (handleEvent e s) =
  match e with
  | agent_complete r =>
      if String.eqb (agent r) SYNTHESIS then agentsCounter s
      else counter_text (Nat.min (S (completedAgents s)) 6)
  | _ => agentsCounter s
  end.
Proof.
  destruct e; cbn; try reflexivity.
  - destruct (negb (String.eqb name SYNTHESIS)); reflexivity.
  - destruct (String.eqb (agent r) SYNTHESIS); reflexivity.
Qed.

Definition counter_ok (s : DomState) : Prop :=
  exists k, k <= 6 /\ agentsCounter s = counter_text k.

Lemma counter_ok_step (e : Event) (s : DomState) :
  counter_ok s -> counter_ok (handleEvent e s).
Proof.
  intros Hs. unfold counter_ok. rewrite handleEvent_counter.
  destruct e; try exact Hs.
  destruct (String.eqb (agent r) SYNTHESIS); [exact Hs|].
  exists (Nat.min (S (completedAgents s)) 6). split; [lia|reflexivity].
Qed.

Lemma counter_ok_events (es : list Event) (s : DomState) :
  counter_ok s -> counter_ok (handleEvents es s).
Proof.
  revert s. induction es as [|e es IH]; intros s Hs; [exact Hs|].
  unfold handleEvents in *. cbn [fold_left]. apply IH, counter_ok_step, Hs.
Qed.

Lemma complete_card_idem (data : AgentResult) (c : Card) :
  complete_card data (complete_card data c) = complete_card data c.
Proof.
  unfold complete_card; cbn.
  destruct (risk_score data); destruct (findings data) as [f|];
    try destruct (String.eqb f EmptyString); reflexivity.
Qed.

Lemma update_card_idem (id : string) (f : Card -> Card) (cs : list (string * Card)) :
  (forall c, f (f c) = f c) ->
  update_card id f (update_card id f cs) = update_card id f cs.
Proof.
  intros Hf. induction cs as [|[k c] cs IH]; [reflexivity|].
  unfold update_card in *. cbn [map]. rewrite IH. cbn [fst snd].
  destruct (String.eqb k id) eqn:Hk; cbn [fst snd]; rewrite ?Hk, ?Hf; reflexivity.
Qed.

Lemma handleEvent_cards_specialist (r : AgentResult) (s : DomState) :
  String.eqb (agent r) SYNTHESIS = false ->
  cards (handleEvent (agent_complete r) s) =
  update_card (agentId (agent r)) (complete_card r) (cards s).
Proof. intros H. cbn. rewrite H. reflexivity. Qed.

Lemma specialist_not_synthesis (r : AgentResult) :
  agent r <> SYNTHESIS -> String.eqb (agent r) SYNTHESIS = false.
Proof. intros H. apply String.eqb_neq, H. Qed.

End AppFacts.

(** ** C2: a duplicate [agent_complete] *)

Module C2.
Import App AppFacts Scenarios.

(** C2 (counterexample). A second [agent_complete] for Financial Signal
    leaves its card as it is but raises [completedAgents] from 1 to 2:
    the state after two applications is not the state after one. *)
Lemma duplicate_completion_counted_twice :
  completedAgents once = 1 /\ completedAgents twice = 2 /\
  ~ (cards twice = cards once /\ completedAgents twice = completedAgents once).
Proof.
  split; [reflexivity|]. split; [reflexivity|].
  intros [_ H]. vm_compute in H. discriminate H.
Qed.

(** C2 (amended). Applying [agent_complete] for the same specialist agent
    twice in a row leaves every agent card (status, score bar, findings and
    red flags) as applying it once does, and [completedAgents] is one higher
    than after the first application. *)
Theorem duplicate_completion_cards_idempotent (r : AgentResult) (s : DomState)
    (Hspec : agent r <> SYNTHESIS) :
  let s1 := handleEvent (agent_complete r) s in
  let s2 := handleEvent (agent_complete r) s1 in
  cards s2 = cards s1 /\ completedAgents s2 = S (completedAgents s1).
Proof.
  cbv zeta. apply specialist_not_synthesis in Hspec. split.
  - rewrite !(handleEvent_cards_specialist r) by exact Hspec.
    apply update_card_idem, complete_card_idem.
  - rewrite (handleEvent_completed (agent_complete r)). reflexivity.
Qed.

Lemma duplicate_completion_cards_idempotent_witness :
  agent r0 <> SYNTHESIS /\
  (cards twice = cards once /\ completedAgents twice = S (completedAgents once)).
Proof.
  split; [discriminate|].
  exact (duplicate_completion_cards_idempotent r0 s0 ltac:(discriminate)).
Defined.

End C2.

(** ** C3: [stream_end] *)

Module C3.
Import JsString App AppFacts Scenarios.

(** C3 (counterexample). A [stream_end] received while the investigation
    is running leaves the status text at [Investigating...] with no error
    class: nothing marks the investigation as failed. *)
Lemma stream_end_while_running_not_failed :
  statusText running = "Investigating..." /\
  statusText (handleEvent stream_end running) = "Investigating..." /\
  statusDotError (handleEvent stream_end running) = false.
Proof. split; [reflexivity|split; reflexivity]. Qed.

(** C3 (amended). [stream_end] changes nothing; when a stream that carries
    no [investigation_complete] ends without a transport error, the status
    text stays [Investigating...]: the investigation is neither presented
    as Complete nor marked as failed. *)
Theorem stream_end_no_effect (parse : string -> option Event) (target : string)
    (chunks : list string) (s : DomState)
    (Hnone : forallb (fun e => negb (is_investigation_complete e))
               (FrameDecoder.decode Event parse chunks) = true) :
  handleEvent stream_end s = s /\
  statusText (runInvestigation parse target chunks None s) = "Investigating...".
Proof.
  split; [reflexivity|].
  unfold runInvestigation. rewrite handleEvents_statusText by exact Hnone.
  reflexivity.
Qed.

Lemma stream_end_no_effect_witness :
  forallb (fun e => negb (is_investigation_complete e))
    (FrameDecoder.decode Event parse_demo chunks_demo) = true /\
  (handleEvent stream_end page = page /\
   statusText (runInvestigation parse_demo "Acme" chunks_demo None page) = "Investigating...").
Proof.
  split; [vm_compute; reflexivity|].
  apply stream_end_no_effect. vm_compute. reflexivity.
Defined.

End C3.

(** ** C4: what [completedAgents] counts *)

Module C4.
Import App AppFacts Scenarios.

(** C4 (counterexample). After the synthesis [agent_complete] alone,
    [completedAgents] is 1 while no agent card is complete. *)
Lemma synthesis_completion_counted :
  completedAgents synth_done = 1 /\ count_complete_cards (cards synth_done) = 0 /\
  completedAgents synth_done <> count_complete_cards (cards synth_done).
Proof. vm_compute. split; [reflexivity|split; [reflexivity|discriminate]]. Qed.

(** C4 (amended). [completedAgents] is reset to 0 when an investigation
    starts and from then on equals the number of [agent_complete] events
    applied, the synthesis one and duplicates included; an [agent_complete]
    for the synthesis role populates no agent card. *)
Theorem completedAgents_counts_completions :
  (forall target s, completedAgents (start_investigation target s) = 0) /\
  (forall es s, completedAgents (handleEvents es s) =
                count_agent_complete es + completedAgents s) /\
  (forall rs f fl s,
     cards (handleEvent (agent_complete
              {| agent := SYNTHESIS; risk_score := rs; findings := f; red_flags := fl |}) s)
     = cards s).
Proof.
  split; [reflexivity|]. split; [exact handleEvents_completed|].
  intros. reflexivity.
Qed.

End C4.

(** ** C5: the progress bar *)

Module C5.
Import App AppFacts Scenarios.

(** C5 (counterexample). After six specialist completions followed by
    [investigation_complete] the status is [Complete] but the progress fill
    is 6/7 of the bar (about 85.7%), not 100%. *)
Lemma progress_after_six_not_full :
  statusText six_then_final = "Complete" /\
  progressFill six_then_final == 600 # 7 /\
  ~ (progressFill six_then_final == 100).
Proof.
  split; [reflexivity|]. split; [reflexivity|].
  intros H. vm_compute in H. discriminate H.
Qed.

(** C5 (amended). A specialist [agent_complete] sets the progress fill to
    [completedAgents / 7] of the bar (TOTAL_AGENTS = 7 counts the synthesis
    agent), the synthesis [agent_complete] sets it to 7/7, the whole bar;
    [investigation_complete] sets the status to [Complete] and hides the
    bar without changing its fill. *)
Theorem progress_fill_steps (r : AgentResult) (d : FinalData) (s : DomState) :
  progressFill (handleEvent (agent_complete r) s) ==
    (if String.eqb (agent r) SYNTHESIS then 100
     else inject_Z (Z.of_nat (S (completedAgents s))) /
          inject_Z (Z.of_nat TOTAL_AGENTS) * 100) /\
  progressFill (handleEvent (investigation_complete d) s) = progressFill s /\
  progressVisible (handleEvent (investigation_complete d) s) = false /\
  statusText (handleEvent (investigation_complete d) s) = "Complete".
Proof.
  split; [|split; [reflexivity|split; reflexivity]].
  cbn - [Qmult Qdiv inject_Z]. destruct (String.eqb (agent r) SYNTHESIS).
  - reflexivity.
  - apply Qeq_refl.
Qed.

End C5.

(** ** C6: recommendation thresholds and score colours *)

Module C6.
Import App.
Local Open Scope Q_scope.

Lemma Qle_bool_false (a b : Q) : Qle_bool a b = false -> b < a.
Proof.
  intros H. apply Qnot_le_lt. intros Hle. apply Qle_bool_iff in Hle. congruence.
Qed.

Lemma Qle_bool_cases (a b : Q) :
  (Qle_bool a b = true /\ a <= b) \/ (Qle_bool a b = false /\ b < a).
Proof.
  destruct (Qle_bool a b) eqn:E.
  - left. split; [reflexivity|]. apply Qle_bool_iff, E.
  - right. split; [reflexivity|]. apply Qle_bool_false, E.
Qed.

(** C6. The recommendation [loadPastInvestigation] derives from the stored
    [overall_risk_score] is a function of the score alone: at least 7.5
    gives REJECT, at least 5.0 INVESTIGATE_FURTHER, at least 2.5
    CONDITIONAL, anything lower APPROVE (for every score, so in particular
    on [0,10]); and it changes tier exactly where [riskColor] does: red,
    orange, yellow and green go with REJECT, INVESTIGATE_FURTHER,
    CONDITIONAL and APPROVE. *)
Theorem recommendation_thresholds (sc : Q) :
  (recommendation_of_score sc = "REJECT" <-> 15 # 2 <= sc) /\
  (recommendation_of_score sc = "INVESTIGATE_FURTHER" <-> 5 <= sc /\ sc < 15 # 2) /\
  (recommendation_of_score sc = "CONDITIONAL" <-> 5 # 2 <= sc /\ sc < 5) /\
  (recommendation_of_score sc = "APPROVE" <-> sc < 5 # 2) /\
  recommendation_of_score sc = color_recommendation (riskColor sc).
Proof.
  unfold recommendation_of_score, riskColor, Qgeb, Qltb.
  destruct (Qle_bool_cases (15 # 2) sc) as [[E3 H3]|[E3 H3]]; rewrite E3;
  destruct (Qle_bool_cases 5 sc) as [[E2 H2]|[E2 H2]]; rewrite ?E2;
  destruct (Qle_bool_cases (5 # 2) sc) as [[E1 H1]|[E1 H1]]; rewrite ?E1;
  cbn; repeat split; intros; try discriminate; try reflexivity;
  try lra; exfalso; lra.
Qed.

End C6.

(** ** C10: the agents counter *)

Module C10.
Import App AppFacts Scenarios.

(** C10 (counterexample). After the synthesis [agent_complete] alone,
    [completedAgents] is 1 but the counter still reads [0 / 6 complete]:
    [updateAgentCounter] is not run on that path. *)
Lemma counter_lags_synthesis :
  agentsCounter synth_done = counter_text 0 /\
  agentsCounter synth_done <> counter_text (Nat.min (completedAgents synth_done) 6).
Proof. split; [reflexivity|]. vm_compute. discriminate. Qed.

(** C10 (amended). Throughout an investigation run the counter reads
    [k / 6 complete] with k at most 6; each specialist [agent_complete]
    sets k to min(completedAgents, 6), while the synthesis one leaves the
    counter as it was. *)
Theorem counter_never_exceeds_six :
  (forall parse target chunks failure s,
     exists k, k <= 6 /\
       agentsCounter (runInvestigation parse target chunks failure s) = counter_text k) /\
  (forall r s,
     agentsCounter (handleEvent (agent_complete r) s) =
     if String.eqb (agent r) SYNTHESIS then agentsCounter s
     else counter_text (Nat.min (completedAgents (handleEvent (agent_complete r) s)) 6)).
Proof.
  split.
  - intros parse target chunks failure s.
    assert (H : counter_ok (handleEvents (FrameDecoder.decode Event parse chunks)
                                         (start_investigation target s))).
    { apply counter_ok_events. exists 0. split; [lia|reflexivity]. }
    destruct H as [k [Hk Hc]]. exists k. split; [exact Hk|].
    unfold runInvestigation. destruct failure; exact Hc.
  - intros r s. rewrite handleEvent_counter, handleEvent_completed. reflexivity.
Qed.

End C10.

(** ** C7: the layout of [renderNetworkGraph] *)

Module C7.
Import Graph.
Local Open Scope R_scope.

Lemma map_index_length {A B : Type} (f : nat -> A -> B) (k : nat) (l : list A) :
  List.length (map_index f k l) = List.length l.
Proof. revert k. induction l as [|x l IH]; intros k; cbn; [reflexivity|now rewrite IH]. Qed.

Lemma map_index_nth {A B : Type} (f : nat -> A -> B) (k i : nat) (l : list A) (a : A) (b : B) :
  (i < List.length l)%nat -> nth i (map_index f k l) b = f (k + i)%nat (nth i l a).
Proof.
  revert k i. induction l as [|x l IH]; intros k i Hi; cbn in Hi; [lia|].
  destruct i as [|i]; cbn.
  - now rewrite Nat.add_0_r.
  - rewrite IH by lia. now rewrite Nat.add_succ_r.
Qed.

Lemma on_circle (cx cy r a : R) :
  (cx + r * cos a - cx) ^ 2 + (cy + r * sin a - cy) ^ 2 = r ^ 2.
Proof.
  replace ((cx + r * cos a - cx) ^ 2 + (cy + r * sin a - cy) ^ 2)
    with (r ^ 2 * (Rsqr (sin a) + Rsqr (cos a))) by (unfold Rsqr; ring).
  rewrite sin2_cos2. ring.
Qed.

(** C7. For a primary node and N children (the i-th of them, i < N), the
    layout uses an area of width [clientWidth || 700] and height
    max(320, 30 * node count); it puts the primary at the centre
    (width/2, height/2) and the i-th child at angle 2*PI*i/N - PI/2 on the
    circle around the centre whose radius is 0.35 * min(width, height).
    The layout is a function of the container width and the nodes alone,
    and a child's position depends only on the width, N and i. *)
Theorem layout_star (clientWidth : nat) (primary : GraphNode)
    (children : list GraphNode) (i : nat) (Hi : (i < List.length children)%nat) :
  let N := List.length children in
  let W := area_width clientWidth in
  let H := Rmax 320 (INR (S N) * 30) in
  let radius := Rmin W H * (35 / 100) in
  let angle := 2 * PI * INR i / INR N - PI / 2 in
  let placed := snd (layout clientWidth (primary :: children)) in
  fst (layout clientWidth (primary :: children)) = (W, H) /\
  List.length placed = S N /\
  nth 0 placed (primary, (0, 0)) = (primary, (W / 2, H / 2)) /\
  nth (S i) placed (primary, (0, 0)) =
    (nth i children primary, (W / 2 + radius * cos angle, H / 2 + radius * sin angle)) /\
  (W / 2 + radius * cos angle - W / 2) ^ 2 + (H / 2 + radius * sin angle - H / 2) ^ 2
    = radius ^ 2.
Proof.
  unfold layout. cbv zeta. cbn [fst snd].
  split; [reflexivity|]. split.
  { cbn [List.length]. now rewrite map_index_length. }
  split; [reflexivity|]. split.
  - cbn [nth]. rewrite (map_index_nth _ 0 i children primary) by exact Hi.
    reflexivity.
  - apply on_circle.
Qed.

Lemma layout_star_witness :
  (0 < List.length [sub_node 0 no_entity])%nat /\
  (let N := List.length [sub_node 0 no_entity] in
   let W := area_width 0 in
   let H := Rmax 320 (INR (S N) * 30) in
   let radius := Rmin W H * (35 / 100) in
   let angle := 2 * PI * INR 0 / INR N - PI / 2 in
   let placed := snd (layout 0 [primary_node no_entity; sub_node 0 no_entity]) in
   fst (layout 0 [primary_node no_entity; sub_node 0 no_entity]) = (W, H) /\
   List.length placed = S N /\
   nth 0 placed (primary_node no_entity, (0, 0)) = (primary_node no_entity, (W / 2, H / 2)) /\
   nth 1 placed (primary_node no_entity, (0, 0)) =
     (nth 0 [sub_node 0 no_entity] (primary_node no_entity),
      (W / 2 + radius * cos angle, H / 2 + radius * sin angle)) /\
   (W / 2 + radius * cos angle - W / 2) ^ 2 + (H / 2 + radius * sin angle - H / 2) ^ 2
     = radius ^ 2).
Proof.
  split; [cbn; lia|].
  exact (layout_star 0 (primary_node no_entity) [sub_node 0 no_entity] 0 ltac:(cbn; lia)).
Defined.

End C7.

(** ** C8: when the graph is suppressed *)

Module C8.
Import Graph Scenarios.

(** C8 (code at the failing input). With a nameless primary, no
    subsidiary and one related entity, the node set has two nodes, yet
    [renderNetworkGraph] hides the graph: its guard tests the subsidiaries
    only, not the related entities. *)
Theorem related_only_graph_hidden :
  List.length (graph_nodes related_only) = 2%nat /\
  renderNetworkGraph 0 related_only = Hidden.
Proof. split; reflexivity. Qed.

End C8.

(** ** C9: compare-mode selection *)

Module C9.
Import Compare CompareRun.

Lemma existsb_eqb_In (x : nat) (l : list nat) : existsb (Nat.eqb x) l = true <-> In x l.
Proof.
  rewrite existsb_exists. split.
  - intros [y [Hy E]]. apply Nat.eqb_eq in E. now subst.
  - intros H. exists x. split; [exact H|apply Nat.eqb_refl].
Qed.

Lemma remove_first_In (x z : nat) (l : list nat) : In z (remove_first x l) -> In z l.
Proof.
  induction l as [|y l IH]; cbn; [tauto|].
  destruct (Nat.eqb x y); cbn; [tauto|]. intros [H|H]; [now left|right; auto].
Qed.

Lemma remove_first_notin (x : nat) (l : list nat) : NoDup l -> ~ In x (remove_first x l).
Proof.
  induction l as [|y l IH]; intros Hnd; cbn; [tauto|].
  apply NoDup_cons_iff in Hnd as [Hy Hl].
  destruct (Nat.eqb x y) eqn:E.
  - apply Nat.eqb_eq in E. now subst.
  - apply Nat.eqb_neq in E. intros [H|H]; [congruence|exact (IH Hl H)].
Qed.

Lemma remove_first_nodup (x : nat) (l : list nat) : NoDup l -> NoDup (remove_first x l).
Proof.
  induction l as [|y l IH]; intros Hnd; cbn; [constructor|].
  apply NoDup_cons_iff in Hnd as [Hy Hl].
  destruct (Nat.eqb x y); [exact Hl|].
  constructor; [|exact (IH Hl)]. intros H. apply Hy, (remove_first_In x), H.
Qed.

Lemma remove_first_length (x : nat) (l : list nat) :
  (List.length (remove_first x l) <= List.length l)%nat.
Proof.
  induction l as [|y l IH]; cbn; [lia|]. destruct (Nat.eqb x y); cbn; lia.
Qed.

Lemma toggle_selection_props (idx : nat) (sel : list nat) :
  NoDup sel -> (List.length sel <= 2)%nat ->
  (In idx sel -> ~ In idx (toggle_selection idx sel)) /\
  (~ In idx sel -> List.length sel = 2%nat -> toggle_selection idx sel = sel) /\
  NoDup (toggle_selection idx sel) /\
  (List.length (toggle_selection idx sel) <= 2)%nat.
Proof.
  intros Hnd Hlen. unfold toggle_selection.
  destruct (existsb (Nat.eqb idx) sel) eqn:Ex.
  - apply existsb_eqb_In in Ex.
    split; [intros _; apply remove_first_notin, Hnd|].
    split; [tauto|].
    split; [apply remove_first_nodup, Hnd|].
    pose proof (remove_first_length idx sel). lia.
  - assert (Hn : ~ In idx sel) by (rewrite <- existsb_eqb_In; congruence).
    split; [tauto|].
    destruct (List.length sel <? 2)%nat eqn:Lt.
    + apply Nat.ltb_lt in Lt. split; [intros _ H; lia|].
      split.
      * apply NoDup_app; [exact Hnd|constructor; [tauto|constructor]|].
        intros a Ha [Hb|[]]. subst. contradiction.
      * rewrite length_app. cbn. lia.
    + apply Nat.ltb_ge in Lt. split; [reflexivity|]. split; [exact Hnd|exact Hlen].
Qed.

(** C9 (code at the failing input). From the compare-mode button, clicks
    on two distinct records [i] and [j] emit their comparison once;
    [showComparison] then sets [_compareMode] to [false] but keeps
    [_compareSelected], and the listener of the cards never reads the
    mode. A further click on a third record [k] keeps the pair, as the
    claim says, but is not ignored: the pair now has two members, so the
    comparison of [i] and [j] is emitted again. *)
Theorem compare_third_click_reemits (i j k : nat)
    (Hij : i <> j) (Hki : k <> i) (Hkj : k <> j) :
  let st2 := fst (compare_clicks [i; j] compare_start) in
  snd (compare_clicks [i; j] compare_start) = [(i, j)] /\
  compareMode st2 = false /\ compareSelected st2 = [i; j] /\
  compare_click k st2 = (st2, Some (i, j)).
Proof.
  assert (Eji : Nat.eqb j i = false) by (apply Nat.eqb_neq; congruence).
  assert (Eki : Nat.eqb k i = false) by (apply Nat.eqb_neq; congruence).
  assert (Ekj : Nat.eqb k j = false) by (apply Nat.eqb_neq; congruence).
  pose (st1 := {| compareMode := true; compareSelected := [i] |}).
  pose (st2 := {| compareMode := false; compareSelected := [i; j] |}).
  assert (E1 : compare_click i compare_start = (st1, None)) by reflexivity.
  assert (E2 : compare_click j st1 = (st2, Some (i, j))).
  { unfold compare_click, toggle_selection, st1, st2. cbn [existsb compareSelected].
    rewrite Eji. reflexivity. }
  assert (E3 : compare_click k st2 = (st2, Some (i, j))).
  { unfold compare_click, toggle_selection, st2. cbn [existsb compareSelected].
    rewrite Eki, Ekj. reflexivity. }
  cbv zeta. cbn [compare_clicks]. rewrite E1, E2. cbn [fst snd].
  split; [reflexivity|]. split; [reflexivity|]. split; [reflexivity|exact E3].
Qed.

Lemma compare_third_click_reemits_witness :
  (0 <> 1 /\ 2 <> 0 /\ 2 <> 1)%nat /\
  (let st2 := fst (compare_clicks [0; 1]%nat compare_start) in
   snd (compare_clicks [0; 1]%nat compare_start) = [(0, 1)%nat] /\
   compareMode st2 = false /\ compareSelected st2 = [0; 1]%nat /\
   compare_click 2 st2 = (st2, Some (0, 1)%nat)).
Proof.
  split; [lia|].
  exact (compare_third_click_reemits 0 1 2 ltac:(lia) ltac:(lia) ltac:(lia)).
Defined.

End C9.

(* ================================================================== *)
(** * Further properties of the code *)

(** ** The frame decoder *)

Module DecoderExtra.
Import JsString FrameDecoder DecoderFacts Observe.

Lemma split_lines_no_nl (s : string) :
  ~ In nl (list_ascii_of_string s) -> split_lines s = ([], s).
Proof.
  induction s as [|c s IH]; intros H; [reflexivity|].
  cbn - [nl] in H. cbn - [nl]. rewrite IH by tauto.
  destruct (Ascii.eqb c nl) eqn:E; [|reflexivity].
  apply Ascii.eqb_eq in E. subst. tauto.
Qed.

Lemma split_lines_rest_no_nl (s : string) :
  ~ In nl (list_ascii_of_string (snd (split_lines s))).
Proof.
  induction s as [|c s IH]; [cbn; tauto|].
  cbn - [nl]. destruct (split_lines s) as [ls r]. cbn in IH.
  destruct (Ascii.eqb c nl) eqn:E; [exact IH|].
  destruct ls; cbn - [nl]; [|exact IH].
  intros [H|H]; [|exact (IH H)]. subst. rewrite Ascii.eqb_refl in E. discriminate.
Qed.

Lemma list_ascii_of_string_app (a b : string) :
  list_ascii_of_string (a ++ b) = (list_ascii_of_string a ++ list_ascii_of_string b)%list.
Proof. induction a as [|c a IH]; cbn; [reflexivity|now rewrite IH]. Qed.

Lemma no_nl_app (a b : string) :
  ~ In nl (list_ascii_of_string a) -> ~ In nl (list_ascii_of_string b) ->
  ~ In nl (list_ascii_of_string (a ++ b)).
Proof. rewrite list_ascii_of_string_app, in_app_iff. tauto. Qed.

Lemma stream_of_app (c1 c2 : list string) :
  stream_of (c1 ++ c2) = (stream_of c1 ++ stream_of c2)%string.
Proof.
  induction c1 as [|c c1 IH]; [reflexivity|].
  change (stream_of ((c :: c1) ++ c2)) with (c ++ stream_of (c1 ++ c2))%string.
  change (stream_of (c :: c1)) with (c ++ stream_of c1)%string.
  rewrite IH. apply string_app_assoc.
Qed.

Lemma split_lines_line (a : string) :
  ~ In nl (list_ascii_of_string a) -> split_lines (a ++ nls) = ([a], EmptyString).
Proof.
  induction a as [|c a IH]; intros H; [reflexivity|].
  cbn - [nl] in H. cbn - [nl]. rewrite IH by tauto.
  destruct (Ascii.eqb c nl) eqn:E; [|reflexivity].
  apply Ascii.eqb_eq in E. subst. tauto.
Qed.

Lemma split_lines_terminated (p : string) : snd (split_lines (p ++ nls)) = EmptyString.
Proof.
  rewrite split_lines_app. pose proof (split_lines_rest_no_nl p) as H.
  destruct (split_lines p) as [la ra]. cbn in H.
  rewrite (split_lines_line ra H). reflexivity.
Qed.

Lemma split_lines_app_empty_rest (a b : string) :
  snd (split_lines a) = EmptyString ->
  fst (split_lines (a ++ b)) = (fst (split_lines a) ++ fst (split_lines b))%list.
Proof.
  intros H. rewrite split_lines_app. destruct (split_lines a) as [la ra].
  cbn in H. subst. cbn. destruct (split_lines b). reflexivity.
Qed.

Lemma split_lines_count (s : string) :
  List.length (fst (split_lines s)) = count_newlines s.
Proof.
  unfold count_newlines.
  induction s as [|c s IH]; [reflexivity|].
  cbn - [nl]. destruct (split_lines s) as [ls r]. cbn in IH.
  rewrite (Ascii.eqb_sym nl c).
  destruct (Ascii.eqb c nl); cbn - [nl]; [now rewrite IH|].
  destruct ls; cbn; exact IH.
Qed.

Lemma frames_of_lines_length (Ev : Type) (parse : string -> option Ev) (ls : list string) :
  (List.length (frames_of_lines Ev parse ls) <= List.length ls)%nat.
Proof.
  induction ls as [|l ls IH]; [cbn; lia|].
  change (frames_of_lines Ev parse (l :: ls))
    with (frame_of_line Ev parse l ++ frames_of_lines Ev parse ls)%list.
  rewrite length_app. cbn [List.length].
  assert (List.length (frame_of_line Ev parse l) <= 1)%nat.
  { unfold frame_of_line.
    destruct (negb (startsWith l "data: ")); [cbn; lia|].
    destruct (String.eqb _ EmptyString); [cbn; lia|].
    destruct (parse _); cbn; lia. }
  lia.
Qed.

(** A stream whose last line has no terminating newline: the frame on that
    line is never handled, whatever it holds (the loop drops [buffer] when
    [result.done]). *)
Theorem decode_drops_unterminated_tail (Ev : Type) (parse : string -> option Ev)
    (chunks : list string) (rest : string)
    (Hrest : ~ In nl (list_ascii_of_string rest)) :
  decode Ev parse (chunks ++ [rest]) = decode Ev parse chunks.
Proof.
  rewrite !decode_stream, stream_of_app.
  change (stream_of [rest]) with (rest ++ EmptyString)%string.
  rewrite string_app_nil_r, split_lines_app.
  pose proof (split_lines_rest_no_nl (stream_of chunks)) as Hr.
  destruct (split_lines (stream_of chunks)) as [la ra]. cbn in Hr.
  rewrite (split_lines_no_nl (ra ++ rest)) by (apply no_nl_app; assumption).
  cbn. now rewrite app_nil_r.
Qed.

Lemma decode_drops_unterminated_tail_witness :
  ~ In nl (list_ascii_of_string "data: late") /\
  decode string (fun s => Some s) (app ["data: a" ++ nls] ["data: late"])
  = decode string (fun s => Some s) ["data: a" ++ nls].
Proof.
  assert (H : ~ In nl (list_ascii_of_string "data: late")).
  { vm_compute. intros H. repeat (destruct H as [H|H]; [discriminate H|]). exact H. }
  split; [exact H|].
  exact (decode_drops_unterminated_tail string (fun s => Some s) ["data: a" ++ nls] "data: late" H).
Defined.

(** Once the stream read so far ends on a line boundary, the frames of the
    rest follow those read so far as if the rest were a stream of its own:
    the decoder carries nothing over a line boundary. *)
Theorem decode_app_at_line_boundary (Ev : Type) (parse : string -> option Ev)
    (c1 c2 : list string) (p : string)
    (Hboundary : stream_of c1 = (p ++ nls)%string) :
  decode Ev parse (c1 ++ c2) = (decode Ev parse c1 ++ decode Ev parse c2)%list.
Proof.
  rewrite !decode_stream, stream_of_app.
  rewrite split_lines_app_empty_rest by (rewrite Hboundary; apply split_lines_terminated).
  apply frames_of_lines_app.
Qed.

Lemma decode_app_at_line_boundary_witness :
  stream_of ["data: a" ++ nls; "data: b" ++ nls] = ("data: a" ++ nls ++ "data: b" ++ nls)%string /\
  decode string (fun s => Some s)
    (app ["data: a" ++ nls; "data: b" ++ nls] ["data: c"; nls])
  = app (decode string (fun s => Some s) ["data: a" ++ nls; "data: b" ++ nls])
        (decode string (fun s => Some s) ["data: c"; nls]).
Proof.
  split; [reflexivity|].
  exact (decode_app_at_line_boundary string (fun s => Some s)
           ["data: a" ++ nls; "data: b" ++ nls] ["data: c"; nls]
           ("data: a" ++ nls ++ "data: b") eq_refl).
Defined.

(** At most one frame per line: the number of frames handled never exceeds
    the number of line feeds in the stream. *)
Theorem decode_frames_bounded (Ev : Type) (parse : string -> option Ev)
    (chunks : list string) :
  (List.length (decode Ev parse chunks) <= count_newlines (stream_of chunks))%nat.
Proof.
  rewrite decode_stream, <- split_lines_count. apply frames_of_lines_length.
Qed.

End DecoderExtra.

(** ** String helpers of the cards and the graph *)

Module HelperExtra.
Import JsString App Observe.

Lemma lower_ascii_not_upper (c : ascii) : is_upper (lower_ascii c) = false.
Proof. destruct c as [[] [] [] [] [] [] [] []]; reflexivity. Qed.

Lemma upper_lower_ascii (c : ascii) : upper_ascii (lower_ascii c) = upper_ascii c.
Proof. destruct c as [[] [] [] [] [] [] [] []]; reflexivity. Qed.

Lemma all_chars_toLowerCase (s : string) :
  all_chars (fun c => negb (is_upper c)) (toLowerCase s) = true.
Proof.
  induction s as [|c s IH]; [reflexivity|].
  cbn. rewrite lower_ascii_not_upper. exact IH.
Qed.

Lemma all_chars_replace_amp (p : ascii -> bool) (s : string) :
  p "-"%char = true -> all_chars p s = true -> all_chars p (replace_amp s) = true.
Proof.
  intros Hd. remember (String.length s) as n eqn:Hn.
  revert s Hn. induction n as [n IH] using (well_founded_induction lt_wf).
  intros s Hn Hs. destruct s as [|c s]; [reflexivity|].
  cbn in Hs. apply andb_prop in Hs as [Hc Hs].
  assert (Hrec : forall t, (String.length t < n)%nat -> all_chars p t = true ->
                           all_chars p (replace_amp t) = true).
  { intros t Ht. apply (IH (String.length t)); [exact Ht|reflexivity]. }
  cbn in Hn.
  destruct (Ascii.eqb c " ") eqn:E1.
  - apply Ascii.eqb_eq in E1. subst c.
    destruct s as [|c2 s2]; [cbn; rewrite Hc; reflexivity|].
    destruct (Ascii.eqb c2 "&") eqn:E2.
    + apply Ascii.eqb_eq in E2. subst c2.
      destruct s2 as [|c3 s3]; [cbn; rewrite Hc; exact Hs|].
      destruct (Ascii.eqb c3 " ") eqn:E3.
      * apply Ascii.eqb_eq in E3. subst c3.
        cbn in Hs. apply andb_prop in Hs as [_ Hs]. apply andb_prop in Hs as [_ Hs].
        change (all_chars p (String "-" (replace_amp s3)) = true).
        cbn. rewrite Hd. apply Hrec; [cbn in Hn |- *; lia|exact Hs].
      * apply Ascii.eqb_neq in E3.
        assert (Hr : replace_amp (String " " (String "&" (String c3 s3))) =
                     String " " (replace_amp (String "&" (String c3 s3)))).
        { cbn. destruct c3 as [[] [] [] [] [] [] [] []]; try reflexivity; exfalso; apply E3; reflexivity. }
        rewrite Hr. cbn [all_chars]. rewrite Hc. apply Hrec; [cbn in Hn |- *; lia|exact Hs].
    + apply Ascii.eqb_neq in E2.
      assert (Hr : replace_amp (String " " (String c2 s2)) =
                   String " " (replace_amp (String c2 s2))).
      { cbn. destruct c2 as [[] [] [] [] [] [] [] []]; try reflexivity; exfalso; apply E2; reflexivity. }
      rewrite Hr. cbn [all_chars]. rewrite Hc. apply Hrec; [cbn in Hn |- *; lia|exact Hs].
  - apply Ascii.eqb_neq in E1.
    assert (Hr : replace_amp (String c s) = String c (replace_amp s)).
    { cbn. destruct c as [[] [] [] [] [] [] [] []]; try reflexivity; exfalso; apply E1; reflexivity. }
    rewrite Hr. cbn [all_chars]. rewrite Hc. apply Hrec; [lia|exact Hs].
Qed.

Lemma all_chars_replace_space (s : string) :
  all_chars (fun c => negb (is_upper c)) s = true ->
  all_chars (fun c => negb (Ascii.eqb c " ") && negb (is_upper c)) (replace_space s) = true.
Proof.
  induction s as [|c s IH]; [reflexivity|].
  cbn. intros H. apply andb_prop in H as [Hc Hs].
  destruct (Ascii.eqb c " ") eqn:E; cbn; rewrite IH by exact Hs.
  - reflexivity.
  - rewrite E, Hc. reflexivity.
Qed.

(** [agentId] yields the slug form of the card ids: whatever the agent
    name, the id has no space and no upper-case letter. *)
Theorem agentId_slug (name : string) :
  all_chars (fun c => negb (Ascii.eqb c " ") && negb (is_upper c)) (agentId name) = true.
Proof.
  unfold agentId. apply all_chars_replace_space, all_chars_replace_amp;
    [reflexivity|apply all_chars_toLowerCase].
Qed.

Lemma Qle_bool_cases' (a b : Q) :
  (Qle_bool a b = true /\ (a <= b)%Q) \/ (Qle_bool a b = false /\ (b < a)%Q).
Proof. apply C6.Qle_bool_cases. Qed.

(** A higher score never gets a milder colour or recommendation: the tier
    of [riskColor] and of the recommendation [loadPastInvestigation]
    derives are monotone in the score. *)
Theorem risk_tiers_monotone (a b : Q) (Hab : (a <= b)%Q) :
  (color_rank (riskColor a) <= color_rank (riskColor b))%nat /\
  (recommendation_rank (recommendation_of_score a) <=
   recommendation_rank (recommendation_of_score b))%nat.
Proof.
  unfold riskColor, recommendation_of_score, Qltb, Qgeb.
  destruct (Qle_bool_cases' (5 # 2) a) as [[Ea1 Ha1]|[Ea1 Ha1]]; rewrite Ea1;
  destruct (Qle_bool_cases' 5 a) as [[Ea2 Ha2]|[Ea2 Ha2]]; rewrite ?Ea2;
  destruct (Qle_bool_cases' (15 # 2) a) as [[Ea3 Ha3]|[Ea3 Ha3]]; rewrite ?Ea3;
  destruct (Qle_bool_cases' (5 # 2) b) as [[Eb1 Hb1]|[Eb1 Hb1]]; rewrite ?Eb1;
  destruct (Qle_bool_cases' 5 b) as [[Eb2 Hb2]|[Eb2 Hb2]]; rewrite ?Eb2;
  destruct (Qle_bool_cases' (15 # 2) b) as [[Eb3 Hb3]|[Eb3 Hb3]]; rewrite ?Eb3;
  cbn; try (split; lia); exfalso; lra.
Qed.

Lemma risk_tiers_monotone_witness :
  (3 <= 8)%Q /\
  (color_rank (riskColor 3) <= color_rank (riskColor 8))%nat /\
  (recommendation_rank (recommendation_of_score 3) <=
   recommendation_rank (recommendation_of_score 8))%nat.
Proof.
  assert (H : (3 <= 8)%Q) by (vm_compute; discriminate).
  split; [exact H|]. exact (risk_tiers_monotone 3 8 H).
Defined.

Lemma substring_length (k : nat) (s : string) :
  (k <= String.length s)%nat -> String.length (String.substring 0 k s) = k.
Proof.
  revert s. induction k as [|k IH]; intros s H; [destruct s; reflexivity|].
  destruct s as [|c s]; cbn in *; [lia|]. f_equal. apply IH. lia.
Qed.

Lemma substring_prefix (k : nat) (s : string) : String.prefix (String.substring 0 k s) s = true.
Proof.
  revert s. induction k as [|k IH]; intros s; [destruct s; reflexivity|].
  destruct s as [|c s]; [reflexivity|]. cbn. destruct (ascii_dec c c) as [_|n]; [apply IH|congruence].
Qed.

Lemma string_length_app (a b : string) :
  String.length (a ++ b) = (String.length a + String.length b)%nat.
Proof. induction a as [|c a IH]; cbn; [reflexivity|now rewrite IH]. Qed.

(** The truncation [s.length > n ? s.substring(0, k) + e : s] with
    [k + e.length <= n + 1]. *)
Lemma truncation_props (n k : nat) (e s : string)
    (Hk : (k + String.length e <= S n)%nat) (Hkn : (k <= n)%nat) :
  let t := if (n <? String.length s)%nat then String.substring 0 k s ++ e else s in
  (String.length t <= Nat.max n (k + String.length e))%nat /\
  ((String.length s <= n)%nat -> t = s) /\
  ((n < String.length s)%nat ->
     t = (String.substring 0 k s ++ e)%string /\
     String.prefix (String.substring 0 k s) s = true /\
     String.length t = (k + String.length e)%nat).
Proof.
  cbv zeta. destruct (n <? String.length s)%nat eqn:E.
  - apply Nat.ltb_lt in E.
    rewrite string_length_app, substring_length by lia.
    split; [lia|]. split; [intros; lia|].
    intros _. split; [reflexivity|]. split; [apply substring_prefix|reflexivity].
  - apply Nat.ltb_ge in E. split; [lia|]. split; [reflexivity|]. intros; lia.
Qed.

(** A red flag on an agent card is at most 60 characters long: a longer
    flag is cut to its first 57 characters followed by [...], 60 in all; a
    flag of at most 60 characters is shown whole. *)
Theorem short_flag_bounded (flag : string) :
  (String.length (short_flag flag) <= 60)%nat /\
  ((String.length flag <= 60)%nat -> short_flag flag = flag) /\
  ((60 < String.length flag)%nat ->
     String.prefix (String.substring 0 57 flag) flag = true /\
     short_flag flag = (String.substring 0 57 flag ++ "...")%string /\
     String.length (short_flag flag) = 60%nat).
Proof.
  destruct (truncation_props 60 57 "..." flag ltac:(cbn; lia) ltac:(lia))
    as [H1 [H2 H3]].
  unfold short_flag. split; [exact H1|]. split; [exact H2|].
  intros H. destruct (H3 H) as [Ht [Hp Hl]]. split; [exact Hp|]. split; [exact Ht|exact Hl].
Qed.

(** In the graph, a node label is at most 19 characters long (a label of
    more than 18 is cut to 16 followed by [...]), and a jurisdiction tag is
    at most 12 (cut to 10 followed by [..]); each is the text itself when it
    is short enough, and otherwise starts with the text's first characters. *)
Theorem svg_labels_bounded (label jurisdiction : string) :
  (String.length (GraphSvg.svg_label label) <= 19)%nat /\
  ((String.length label <= 18)%nat -> GraphSvg.svg_label label = label) /\
  ((18 < String.length label)%nat ->
     GraphSvg.svg_label label = (String.substring 0 16 label ++ "...")%string /\
     String.prefix (String.substring 0 16 label) label = true) /\
  (String.length (GraphSvg.jur_label jurisdiction) <= 12)%nat /\
  ((String.length jurisdiction <= 12)%nat -> GraphSvg.jur_label jurisdiction = jurisdiction) /\
  ((12 < String.length jurisdiction)%nat ->
     GraphSvg.jur_label jurisdiction = (String.substring 0 10 jurisdiction ++ "..")%string /\
     String.prefix (String.substring 0 10 jurisdiction) jurisdiction = true).
Proof.
  destruct (truncation_props 18 16 "..." label ltac:(cbn; lia) ltac:(lia))
    as [L1 [L2 L3]].
  destruct (truncation_props 12 10 ".." jurisdiction ltac:(cbn; lia) ltac:(lia))
    as [J1 [J2 J3]].
  unfold GraphSvg.svg_label, GraphSvg.jur_label.
  split; [change (Nat.max 18 (16 + String.length "...")) with 19%nat in L1; exact L1|]. split; [exact L2|].
  split; [intros H; destruct (L3 H) as [? [? _]]; split; assumption|].
  split; [change (Nat.max 12 (10 + String.length "..")) with 12%nat in J1; exact J1|]. split; [exact J2|].
  intros H; destruct (J3 H) as [? [? _]]; split; assumption.
Qed.

Lemma toUpperCase_toLowerCase (s : string) : toUpperCase (toLowerCase s) = toUpperCase s.
Proof.
  induction s as [|c s IH]; [reflexivity|].
  change (String (upper_ascii (lower_ascii c)) (toUpperCase (toLowerCase s)) =
          String (upper_ascii c) (toUpperCase s)).
  now rewrite upper_lower_ascii, IH.
Qed.

Lemma rec_class_in (p : string) : In (rec_class p) recommendation_classes.
Proof.
  unfold rec_class, recommendation_classes.
  destruct (String.eqb p "REJECT"); [cbn; tauto|].
  destruct (String.eqb p "INVESTIGATE_FURTHER"); [cbn; tauto|].
  destruct (String.eqb p "CONDITIONAL"); [cbn; tauto|].
  destruct (String.eqb p "APPROVE"); cbn; tauto.
Qed.

Lemma rec_class_fallback (p : string) :
  ~ In p ["REJECT"; "INVESTIGATE_FURTHER"; "CONDITIONAL"; "APPROVE"] ->
  rec_class p = "investigate".
Proof.
  intros Hout. unfold rec_class.
  destruct (String.eqb p "REJECT") eqn:E1;
    [apply String.eqb_eq in E1; subst; cbn in Hout; tauto|].
  destruct (String.eqb p "INVESTIGATE_FURTHER") eqn:E2;
    [apply String.eqb_eq in E2; subst; cbn in Hout; tauto|].
  destruct (String.eqb p "CONDITIONAL") eqn:E3;
    [apply String.eqb_eq in E3; subst; cbn in Hout; tauto|].
  destruct (String.eqb p "APPROVE") eqn:E4;
    [apply String.eqb_eq in E4; subst; cbn in Hout; tauto|].
  reflexivity.
Qed.

(** The recommendation box of [showFinalResults] ignores the case of
    [proceed_recommendation] (a lower-case [reject] is shown as REJECT is),
    and always gets one of the four classes reject, investigate,
    conditional, approve: a value whose upper-case form is none of the
    four keys of [recMap] falls back to investigate. *)
Theorem recommendation_class_case_insensitive (d : FinalData) (s : DomState) :
  let lowered := {| overall_risk_score := overall_risk_score d; risk_level := risk_level d;
                    proceed_recommendation := toLowerCase (proceed_recommendation d);
                    top_red_flags := top_red_flags d;
                    executive_summary := executive_summary d |} in
  recommendationShown (showFinalResults lowered s) = recommendationShown (showFinalResults d s) /\
  (exists c, recommendationShown (showFinalResults d s) = Some c /\ In c recommendation_classes) /\
  (~ In (toUpperCase (proceed_recommendation d))
        ["REJECT"; "INVESTIGATE_FURTHER"; "CONDITIONAL"; "APPROVE"] ->
   recommendationShown (showFinalResults d s) = Some "investigate").
Proof.
  cbv zeta. split; [|split].
  - cbn [showFinalResults set_report recommendationShown proceed_recommendation].
    now rewrite toUpperCase_toLowerCase.
  - eexists. split; [reflexivity|]. apply rec_class_in.
  - intros Hout. cbn [showFinalResults set_report recommendationShown].
    now rewrite (rec_class_fallback _ Hout).
Qed.

End HelperExtra.

(** ** [renderNetworkGraph] *)

Module GraphExtra.
Import Graph.

Lemma map_index_map {A B C : Type} (g : B -> C) (f : nat -> A -> B) (k : nat) (l : list A) :
  map g (map_index f k l) = map_index (fun i a => g (f i a)) k l.
Proof. revert k. induction l as [|x l IH]; intros k; cbn; [reflexivity|now rewrite IH]. Qed.

Lemma map_index_id {A : Type} (k : nat) (l : list A) : map_index (fun _ a => a) k l = l.
Proof. revert k. induction l as [|x l IH]; intros k; cbn; [reflexivity|now rewrite IH]. Qed.

Lemma map_index_In {A B : Type} (f : nat -> A -> B) (k : nat) (l : list A) (y : B) :
  In y (map_index f k l) -> exists i a, (k <= i)%nat /\ In a l /\ y = f i a.
Proof.
  revert k. induction l as [|x l IH]; intros k H; cbn in H; [tauto|].
  destruct H as [H|H].
  - exists k, x. split; [lia|]. split; [now left|now symmetry].
  - destruct (IH (S k) H) as [i [a [Hi [Ha Hy]]]].
    exists i, a. split; [lia|]. split; [now right|exact Hy].
Qed.

Lemma map_index_NoDup {A B : Type} (f : nat -> A -> B) (k : nat) (l : list A) :
  (forall i j a b, f i a = f j b -> i = j) -> NoDup (map_index f k l).
Proof.
  intros Hinj. revert k. induction l as [|x l IH]; intros k; cbn; [constructor|].
  constructor; [|apply IH].
  intros H. destruct (map_index_In f (S k) l _ H) as [i [a [Hi [_ Hy]]]].
  apply Hinj in Hy. lia.
Qed.

Lemma string_of_nat_inj (a b : nat) : App.string_of_nat a = App.string_of_nat b -> a = b.
Proof.
  unfold App.string_of_nat. intros H.
  apply (f_equal NilEmpty.uint_of_string) in H. rewrite !NilEmpty.usu in H.
  injection H as H.
  rewrite <- (DecimalNat.Unsigned.of_to a), <- (DecimalNat.Unsigned.of_to b), H.
  reflexivity.
Qed.

Lemma prefixed_inj (p : string) (a b : nat) :
  (p ++ App.string_of_nat a)%string = (p ++ App.string_of_nat b)%string -> a = b.
Proof.
  induction p as [|c p IH]; cbn; intros H; [now apply string_of_nat_inj|].
  injection H as H. exact (IH H).
Qed.

Lemma graph_nodes_ids (raw : RawData) :
  map node_id (graph_nodes raw) =
  "primary" ::
    app (map_index (fun i _ => "sub-" ++ App.string_of_nat i) 0 (subsidiaries raw))
        (map_index (fun i _ => "rel-" ++ App.string_of_nat i) 0 (related_entities raw)).
Proof.
  unfold graph_nodes. cbn [map]. rewrite map_app, !map_index_map. reflexivity.
Qed.

(** The graph is a star around the primary entity with one node per id:
    every edge runs from [primary] to a child node, the edges reach the
    children in node order, one each, and no two nodes share an id. *)
Theorem graph_star_distinct_ids (raw : RawData) :
  node_id (hd (primary_node (primary_entity raw)) (graph_nodes raw)) = "primary" /\
  Forall (fun e => fst e = "primary") (graph_edges raw) /\
  map snd (graph_edges raw) = map node_id (tl (graph_nodes raw)) /\
  NoDup (map node_id (graph_nodes raw)).
Proof.
  split; [reflexivity|]. split.
  { unfold graph_edges. apply Forall_app. split;
      apply Forall_forall; intros e He; apply map_index_In in He as [i [a [_ [_ ->]]]];
      reflexivity. }
  split.
  { unfold graph_edges, graph_nodes. cbn [tl]. rewrite !map_app, !map_index_map. reflexivity. }
  rewrite graph_nodes_ids. constructor.
  - rewrite in_app_iff. intros [H|H]; apply map_index_In in H as [i [a [_ [_ H]]]];
      discriminate H.
  - apply NoDup_app.
    + apply map_index_NoDup. intros i j _ _ H. exact (prefixed_inj "sub-" i j H).
    + apply map_index_NoDup. intros i j _ _ H. exact (prefixed_inj "rel-" i j H).
    + intros x H1 H2.
      apply map_index_In in H1 as [i [a [_ [_ ->]]]].
      apply map_index_In in H2 as [j [b [_ [_ H]]]].
      discriminate H.
Qed.

Lemma layout_nodes (cw : nat) (nodes : list GraphNode) :
  map fst (snd (layout cw nodes)) = nodes.
Proof.
  unfold layout. destruct nodes as [|p cs]; [reflexivity|].
  cbn [snd map fst]. f_equal. rewrite map_index_map. apply map_index_id.
Qed.

Lemma graph_nodes_length (raw : RawData) :
  List.length (graph_nodes raw) =
  S (List.length (subsidiaries raw) + List.length (related_entities raw)).
Proof.
  unfold graph_nodes. cbn [List.length]. rewrite length_app, !C7.map_index_length.
  reflexivity.
Qed.

(** The three outcomes of [renderNetworkGraph]: it hides the container
    exactly when the primary entity has no name and there is no subsidiary;
    it shows the no-relationships placeholder exactly when the primary has
    a name and there is no subsidiary and no related entity; otherwise it
    draws every node (the primary, then the subsidiaries, then the related
    entities) once and every edge of [graph_edges]. *)
Theorem render_outcomes (cw : nat) (raw : RawData) :
  (renderNetworkGraph cw raw = Hidden <->
     truthy (name (primary_entity raw)) = false /\ subsidiaries raw = []) /\
  (renderNetworkGraph cw raw = NoRelationships <->
     truthy (name (primary_entity raw)) = true /\ subsidiaries raw = [] /\
     related_entities raw = []) /\
  (forall w h placed edges,
     renderNetworkGraph cw raw = Diagram w h placed edges ->
     map fst placed = graph_nodes raw /\ edges = graph_edges raw /\
     List.length placed =
       S (List.length (subsidiaries raw) + List.length (related_entities raw))).
Proof.
  assert (Hn := graph_nodes_length raw).
  assert (Hg : negb (truthy (name (primary_entity raw))) &&
               Nat.eqb (List.length (subsidiaries raw)) 0 = true <->
               truthy (name (primary_entity raw)) = false /\ subsidiaries raw = []).
  { rewrite andb_true_iff, negb_true_iff, Nat.eqb_eq, length_zero_iff_nil. tauto. }
  assert (H1 : Nat.eqb (List.length (graph_nodes raw)) 1 = true <->
               subsidiaries raw = [] /\ related_entities raw = []).
  { rewrite Nat.eqb_eq, Hn, <- !length_zero_iff_nil. lia. }
  pose proof (layout_nodes cw (graph_nodes raw)) as Hl.
  unfold renderNetworkGraph.
  destruct (negb (truthy (name (primary_entity raw))) &&
            Nat.eqb (List.length (subsidiaries raw)) 0) eqn:Eg.
  - assert (Hc : truthy (name (primary_entity raw)) = false /\ subsidiaries raw = [])
      by (apply Hg; first [reflexivity|exact Eg]).
    destruct Hc as [Ht Hs].
    split; [split; [intros _; split; assumption|reflexivity]|].
    split; [split; [discriminate|intros [Ht' _]; congruence]|].
    intros w h placed edges H; discriminate H.
  - destruct (Nat.eqb (List.length (graph_nodes raw)) 1) eqn:E1.
    + assert (Hc : subsidiaries raw = [] /\ related_entities raw = [])
        by (apply H1; first [reflexivity|exact E1]).
      destruct Hc as [Hs Hr].
      assert (Ht : truthy (name (primary_entity raw)) = true).
      { destruct (truthy (name (primary_entity raw))) eqn:Ht; [reflexivity|].
        exfalso. assert (E : negb (truthy (name (primary_entity raw))) &&
                             Nat.eqb (List.length (subsidiaries raw)) 0 = true)
          by (rewrite Ht, Hs; reflexivity).
        congruence. }
      split; [split; [discriminate|intros [Ht' _]; congruence]|].
      split; [split; [intros _; split; [exact Ht|split; assumption]|reflexivity]|].
      intros w h placed edges H; discriminate H.
    + destruct (layout cw (graph_nodes raw)) as [[w0 h0] pl] eqn:El.
      split; [split; [discriminate|intros Hc; apply Hg in Hc; congruence]|].
      split; [split; [discriminate|intros [_ Hc]; apply H1 in Hc; congruence]|].
      intros w h placed edges H. injection H as <- <- <- <-.
      cbn in Hl. split; [exact Hl|]. split; [reflexivity|].
      rewrite <- Hn, <- Hl, length_map. reflexivity.
Qed.

Section Bounds.
Local Open Scope R_scope.

Lemma area_width_pos (cw : nat) : 0 < area_width cw.
Proof.
  unfold area_width. destruct (Nat.eqb cw 0) eqn:E.
  - apply lt_0_INR. lia.
  - apply lt_0_INR. apply Nat.eqb_neq in E. lia.
Qed.

Lemma area_height_ge (n : nat) : 320 <= area_height n.
Proof. unfold area_height. apply Rmax_l. Qed.

Lemma offset_bound (r a : R) : 0 <= r -> - r <= r * cos a <= r /\ - r <= r * sin a <= r.
Proof.
  intros Hr. destruct (COS_bound a) as [C1 C2]. destruct (SIN_bound a) as [S1 S2].
  split; split; nra.
Qed.

(** Every node of the drawing lies well inside the SVG area: its centre is
    at least 15% of the width (and of the height) away from every edge. *)
Theorem layout_within_area (cw : nat) (nodes : list GraphNode) :
  let W := fst (fst (layout cw nodes)) in
  let H := snd (fst (layout cw nodes)) in
  Forall (fun p => 15 / 100 * W <= fst (snd p) <= 85 / 100 * W /\
                   15 / 100 * H <= snd (snd p) <= 85 / 100 * H)
         (snd (layout cw nodes)).
Proof.
  cbv zeta. unfold layout. cbv zeta.
  set (W := area_width cw). set (H := area_height (List.length nodes)).
  assert (HW : 0 < W) by apply area_width_pos.
  assert (HH : 320 <= H) by apply area_height_ge.
  set (r := Rmin W H * (35 / 100)).
  assert (Hr0 : 0 <= r).
  { unfold r. apply Rmult_le_pos; [|lra]. apply Rmin_glb; lra. }
  assert (HrW : r <= 35 / 100 * W).
  { unfold r. pose proof (Rmin_l W H). nra. }
  assert (HrH : r <= 35 / 100 * H).
  { unfold r. pose proof (Rmin_r W H). nra. }
  destruct nodes as [|p cs]; cbn [fst snd]; [constructor|].
  constructor.
  - cbn [fst snd]. split; split; lra.
  - apply Forall_forall. intros q Hq.
    apply map_index_In in Hq as [i [a [_ [_ ->]]]]. cbn [fst snd].
    destruct (offset_bound r (child_angle i (List.length cs)) Hr0) as [[C1 C2] [S1 S2]].
    split; split; lra.
Qed.

End Bounds.

End GraphExtra.

(** ** The agent cards and [loadPastInvestigation] *)

Module CardsExtra.
Import JsString App History Observe.

Lemma load_findings_fields (fs : list StoredFinding) (s : DomState) :
  let s' := fold_left load_finding fs s in
  completedAgents s' = (count_specialist_findings fs + completedAgents s)%nat /\
  counterGreen s' = counterGreen s /\ statusText s' = statusText s /\
  progressVisible s' = progressVisible s.
Proof.
  revert s. induction fs as [|af fs IH]; intros s; [cbn; repeat split; reflexivity|].
  cbv zeta. cbn [fold_left]. destruct (IH (load_finding s af)) as [H1 [H2 [H3 H4]]].
  rewrite H1, H2, H3, H4. unfold load_finding, count_specialist_findings.
  cbn [filter]. destruct (String.eqb (agent_name af) SYNTHESIS); cbn; repeat split; lia.
Qed.

Lemma rec_class_upper (sc : Q) :
  rec_class (toUpperCase (recommendation_of_score sc)) =
  rec_class (recommendation_of_score sc).
Proof.
  unfold recommendation_of_score.
  destruct (Qgeb sc (15 # 2)); [reflexivity|].
  destruct (Qgeb sc 5); [reflexivity|].
  destruct (Qgeb sc (5 # 2)); reflexivity.
Qed.

(** Reloading a stored investigation shows it as finished, whatever the
    page showed before: [completedAgents] is the number of stored findings
    other than the synthesis one, the counter reads [min(that, 6) / 6
    complete] and is green exactly when it reaches 6, the progress bar is
    hidden, the status line is left as it was, the recommendation box gets
    the class of the tier of the stored score, and the report data is the
    [finalData] built from the row. *)
Theorem loadPastInvestigation_view (inv : Investigation) (s : DomState) :
  let n := count_specialist_findings (agent_findings inv) in
  let s' := loadPastInvestigation inv s in
  completedAgents s' = n /\
  agentsCounter s' = counter_text (Nat.min n 6) /\
  counterGreen s' = (6 <=? n)%nat /\
  progressVisible s' = false /\
  statusText s' = statusText s /\
  recommendationShown s' = Some (rec_class (recommendation_of_score (stored_score inv))) /\
  lastInvestigationData s' = Some (final_data inv).
Proof.
  cbv zeta. unfold loadPastInvestigation. cbv zeta.
  set (s2 := set_progress _ _ false (resetAgents s)).
  destruct (load_findings_fields (agent_findings inv) s2) as [H1 [H2 [H3 H4]]].
  set (s3 := fold_left load_finding (agent_findings inv) s2) in *.
  cbn [showFinalResults set_report set_last updateAgentCounter set_counter set_progress
       completedAgents agentsCounter counterGreen progressVisible statusText
       recommendationShown lastInvestigationData].
  rewrite H1. cbn [s2 set_progress resetAgents set_counter set_report set_cards set_completed
                   completedAgents counterGreen statusText] in H2, H3 |- *.
  rewrite Nat.add_0_r.
  split; [reflexivity|]. split; [reflexivity|]. split.
  { rewrite H2. destruct (Nat.eqb (Nat.min (count_specialist_findings (agent_findings inv)) 6) 6) eqn:E.
    - apply Nat.eqb_eq in E. symmetry. apply Nat.leb_le. lia.
    - apply Nat.eqb_neq in E. symmetry. apply Nat.leb_gt. lia. }
  split; [reflexivity|]. split; [exact H3|]. split; [|reflexivity].
  cbn [final_data proceed_recommendation]. now rewrite rec_class_upper.
Qed.

End CardsExtra.

(** ** Selection in the history grid and in compare mode *)

Module SelectExtra.
Import App History.

Lemma set_has_In (x : string) (l : list string) : set_has x l = true <-> In x l.
Proof.
  unfold set_has. rewrite existsb_exists. split.
  - intros [y [Hy E]]. apply String.eqb_eq in E. now subst.
  - intros H. exists x. split; [exact H|apply String.eqb_refl].
Qed.

Lemma set_has_delete (x y : string) (l : list string) :
  set_has x (set_delete y l) = set_has x l && negb (String.eqb x y).
Proof.
  induction l as [|z l IH]; [reflexivity|].
  unfold set_delete in *. cbn [filter].
  destruct (String.eqb z y) eqn:Ezy; cbn [negb]; unfold set_has in *; cbn [existsb];
    rewrite ?IH.
  - apply String.eqb_eq in Ezy. subst z.
    destruct (String.eqb x y); cbn; [rewrite andb_false_r; reflexivity|reflexivity].
  - destruct (String.eqb x z) eqn:Exz; cbn; [|reflexivity].
    apply String.eqb_eq in Exz. subst z. rewrite Ezy. reflexivity.
Qed.

Lemma set_has_add (x y : string) (l : list string) :
  set_has x (set_add y l) = set_has x l || String.eqb x y.
Proof.
  unfold set_add. destruct (set_has y l) eqn:Ey.
  - destruct (String.eqb x y) eqn:E; [|now rewrite orb_false_r].
    apply String.eqb_eq in E. subst. now rewrite Ey.
  - unfold set_has. rewrite existsb_app. cbn. now rewrite orb_false_r.
Qed.

Lemma select_click_has (x y : string) (st : SelectState) :
  set_has x (selectedIds (select_click y st)) = xorb (set_has x (selectedIds st)) (String.eqb x y).
Proof.
  unfold select_click. cbn [selectedIds].
  destruct (set_has y (selectedIds st)) eqn:Ey.
  - rewrite set_has_delete. destruct (String.eqb x y) eqn:E.
    + apply String.eqb_eq in E. subst. rewrite Ey. reflexivity.
    + rewrite andb_true_r, xorb_false_r. reflexivity.
  - rewrite set_has_add. destruct (String.eqb x y) eqn:E.
    + apply String.eqb_eq in E. subst. rewrite Ey. reflexivity.
    + rewrite orb_false_r, xorb_false_r. reflexivity.
Qed.

Lemma select_click_nodup (y : string) (st : SelectState) :
  NoDup (selectedIds st) -> NoDup (selectedIds (select_click y st)).
Proof.
  intros H. unfold select_click. cbn [selectedIds].
  destruct (set_has y (selectedIds st)) eqn:Ey.
  - apply NoDup_filter, H.
  - unfold set_add. rewrite Ey. apply NoDup_app; [exact H|repeat constructor; tauto|].
    intros a Ha [Hb|[]]. subst. apply set_has_In in Ha. congruence.
Qed.

Lemma select_clicks_props (clicks : list string) (st : SelectState) :
  NoDup (selectedIds st) ->
  NoDup (selectedIds (select_clicks clicks st)) /\
  (forall x, set_has x (selectedIds (select_clicks clicks st)) =
             xorb (set_has x (selectedIds st)) (Nat.odd (count_clicks x clicks))).
Proof.
  revert st. induction clicks as [|y clicks IH]; intros st H.
  - split; [exact H|]. intros x. cbn. now rewrite xorb_false_r.
  - unfold select_clicks. cbn [fold_left].
    destruct (IH (select_click y st) (select_click_nodup y st H)) as [Hn Hx].
    split; [exact Hn|]. intros x. unfold select_clicks in Hx. rewrite Hx, select_click_has.
    unfold count_clicks. cbn [filter].
    destruct (String.eqb x y); cbn [List.length]; [|now rewrite xorb_false_r].
    rewrite Nat.odd_succ, <- Nat.negb_odd.
    destruct (set_has x (selectedIds st)), (Nat.odd _); reflexivity.
Qed.

Lemma select_count_text (clicks : list string) (st : SelectState) :
  selectedCount (select_clicks clicks st) = string_of_nat (List.length (selectedIds (select_clicks clicks st)))
  \/ clicks = [].
Proof.
  revert st. destruct clicks as [|y clicks] using rev_ind; intros st; [now right|left].
  unfold select_clicks. rewrite fold_left_app. cbn [fold_left]. reflexivity.
Qed.

(** Select mode keeps a set of ids: from the moment it is switched on,
    after any sequence of clicks on history cards an id is selected exactly
    when its card was clicked an odd number of times, no id is held twice,
    and the counter shows how many are held; confirming the delete sends
    one [DELETE] per selected id, each id once. When there was one, and
    every request settles (no network error), it then leaves select mode
    with an empty selection; when a request rejects, select mode and the
    selection stay as they were. *)
Theorem select_mode_set (clicks : list string) (st0 : SelectState) (ok : bool) :
  let st := select_clicks clicks (toggleSelectMode true st0) in
  NoDup (selectedIds st) /\
  (forall x, In x (selectedIds st) <-> Nat.odd (count_clicks x clicks) = true) /\
  selectedCount st = string_of_nat (List.length (selectedIds st)) /\
  fst (delete_selected true ok st) = selectedIds st /\
  (selectedIds st <> [] ->
     (ok = true ->
        selectMode (snd (delete_selected true ok st)) = false /\
        selectedIds (snd (delete_selected true ok st)) = []) /\
     (ok = false -> snd (delete_selected true ok st) = st)).
Proof.
  cbv zeta.
  destruct (select_clicks_props clicks (toggleSelectMode true st0) (NoDup_nil _)) as [Hn Hx].
  split; [exact Hn|]. split.
  { intros x. rewrite <- set_has_In, Hx. reflexivity. }
  split.
  { destruct (select_count_text clicks (toggleSelectMode true st0)) as [H|H]; [exact H|].
    subst. reflexivity. }
  unfold delete_selected.
  destruct (Nat.eqb (List.length (selectedIds (select_clicks clicks (toggleSelectMode true st0)))) 0) eqn:E.
  - apply Nat.eqb_eq, length_zero_iff_nil in E. rewrite E. cbn [fst snd].
    split; [reflexivity|]. intros H. contradiction.
  - cbn [negb]. destruct ok; cbn [fst snd].
    + split; [reflexivity|]. intros _. split; [intros _; split; reflexivity|discriminate].
    + split; [reflexivity|]. intros _. split; [discriminate|reflexivity].
Qed.

End SelectExtra.

Module CompareExtra.
Import Compare CompareRun.

Lemma compare_click_inv (i : nat) (st : CompareState) :
  NoDup (compareSelected st) -> (List.length (compareSelected st) <= 2)%nat ->
  NoDup (compareSelected (fst (compare_click i st))) /\
  (List.length (compareSelected (fst (compare_click i st))) <= 2)%nat /\
  (forall p, snd (compare_click i st) = Some p -> fst p <> snd p).
Proof.
  intros Hn Hl.
  destruct (C9.toggle_selection_props i (compareSelected st) Hn Hl) as [_ [_ [Hn' Hl']]].
  unfold compare_click.
  destruct (Nat.eqb (List.length (toggle_selection i (compareSelected st))) 2) eqn:E;
    cbn [fst snd compareSelected].
  - split; [exact Hn'|]. split; [exact Hl'|]. intros p Hp. injection Hp as <-.
    apply Nat.eqb_eq in E.
    destruct (toggle_selection i (compareSelected st)) as [|a [|b [|c l]]];
      cbn in E; try discriminate E.
    cbn. apply NoDup_cons_iff in Hn' as [Hab _]. intros ->. apply Hab. now left.
  - split; [exact Hn'|]. split; [exact Hl'|]. intros p Hp. discriminate Hp.
Qed.

Lemma compare_clicks_inv (idxs : list nat) (st : CompareState) :
  NoDup (compareSelected st) -> (List.length (compareSelected st) <= 2)%nat ->
  NoDup (compareSelected (fst (compare_clicks idxs st))) /\
  (List.length (compareSelected (fst (compare_clicks idxs st))) <= 2)%nat /\
  Forall (fun p => fst p <> snd p) (snd (compare_clicks idxs st)).
Proof.
  revert st. induction idxs as [|i idxs IH]; intros st Hn Hl; [cbn; repeat split; auto|].
  cbn [compare_clicks].
  destruct (compare_click_inv i st Hn Hl) as [Hn1 [Hl1 Hp]].
  destruct (compare_click i st) as [st1 out] eqn:E1. cbn [fst snd] in *.
  destruct (IH st1 Hn1 Hl1) as [Hn2 [Hl2 Hf]].
  destruct (compare_clicks idxs st1) as [st2 outs]. cbn [fst snd] in *.
  split; [exact Hn2|]. split; [exact Hl2|].
  destruct out as [p|]; [constructor; [apply Hp; reflexivity|exact Hf]|exact Hf].
Qed.

(** Whatever the records clicked after the compare-mode button, the
    selection never holds a record twice nor more than two records, and
    every comparison opened is of two different records. *)
Theorem compare_run_pairs_distinct (idxs : list nat) :
  NoDup (compareSelected (fst (compare_clicks idxs compare_start))) /\
  (List.length (compareSelected (fst (compare_clicks idxs compare_start))) <= 2)%nat /\
  Forall (fun p => fst p <> snd p) (snd (compare_clicks idxs compare_start)).
Proof. apply compare_clicks_inv; [constructor|cbn; lia]. Qed.

End CompareExtra.

(** ** [animateNumber] *)

Module AnimateExtra.
Import Animate.

Lemma animate_ticks_nonempty (f target step c : nat) : animate_ticks (S f) target step c <> [].
Proof. cbn. destruct (target <=? c + step)%nat; discriminate. Qed.

Lemma animate_ticks_S (f target step c : nat) :
  animate_ticks (S f) target step c =
  if (target <=? c + step)%nat then [target]
  else c + step :: animate_ticks f target step (c + step).
Proof. reflexivity. Qed.

Lemma animate_ticks_run (f target step c : nat) :
  (1 <= step)%nat -> (c < target)%nat -> (target <= c + S f * step)%nat ->
  let ds := animate_ticks (S f) target step c in
  last ds 0 = target /\ (List.length ds <= S f)%nat /\
  Forall (fun v => c < v <= target)%nat ds /\ Sorted lt ds /\
  (forall g, (S f <= g)%nat -> animate_ticks g target step c = ds).
Proof.
  revert c. induction f as [|f IH]; intros c Hs Hc Ht; cbv zeta.
  - cbn [animate_ticks]. replace (target <=? c + step)%nat with true
      by (symmetry; apply Nat.leb_le; lia).
    split; [reflexivity|]. split; [cbn; lia|]. split; [repeat constructor; lia|].
    split; [repeat constructor|].
    intros g Hg. destruct g as [|g]; [lia|]. cbn.
    replace (target <=? c + step)%nat with true by (symmetry; apply Nat.leb_le; lia).
    reflexivity.
  - rewrite (animate_ticks_S (S f)).
    destruct (target <=? c + step)%nat eqn:E.
    + apply Nat.leb_le in E.
      split; [reflexivity|]. split; [cbn; lia|]. split; [repeat constructor; lia|].
      split; [repeat constructor|].
      intros g Hg. destruct g as [|g]; [lia|]. cbn. rewrite (proj2 (Nat.leb_le _ _) E).
      reflexivity.
    + apply Nat.leb_gt in E.
      destruct (IH (c + step) Hs E ltac:(cbn in *; lia)) as [Hlast [Hlen [Hall [Hsort Hfuel]]]].
      cbv zeta in *.
      pose proof (animate_ticks_nonempty f target step (c + step)) as Hne.
      split.
      { destruct (animate_ticks (S f) target step (c + step)); [contradiction|exact Hlast]. }
      split; [cbn [List.length]; lia|].
      split.
      { constructor; [lia|]. eapply Forall_impl; [|exact Hall]. cbn. lia. }
      split.
      { constructor; [exact Hsort|].
        destruct (animate_ticks (S f) target step (c + step)) as [|v vs]; [constructor|].
        constructor. inversion Hall; lia. }
      intros g Hg. destruct g as [|g]; [lia|]. rewrite animate_ticks_S.
      rewrite (proj2 (Nat.leb_gt _ _) E). f_equal. apply Hfuel. lia.
Qed.

(** [animateNumber] always ends on the target: the values shown rise
    strictly, never pass the target, the last one is the target itself, and
    the interval is cleared after at most 30 ticks (about 0.9 s): watching
    it longer shows nothing more. *)
Theorem animateNumber_reaches_target (target : nat) :
  let ds := animateNumber 30 target in
  last ds 0 = target /\ (1 <= List.length ds <= 30)%nat /\
  Forall (fun v => v <= target)%nat ds /\ Sorted lt ds /\
  (forall fuel, (30 <= fuel)%nat -> animateNumber fuel target = ds).
Proof.
  cbv zeta. unfold animateNumber.
  destruct target as [|t].
  - cbn. split; [reflexivity|]. split; [lia|]. split; [repeat constructor|].
    split; [repeat constructor|].
    intros fuel Hf. destruct fuel as [|fuel]; [lia|]. reflexivity.
  - assert (Hs : (1 <= animate_step (S t))%nat) by (unfold animate_step; lia).
    assert (Hc : (S t <= 0 + 30 * animate_step (S t))%nat).
    { unfold animate_step.
      pose proof (Nat.div_mod (S t + 29) 30 ltac:(lia)) as Hd.
      pose proof (Nat.mod_upper_bound (S t + 29) 30 ltac:(lia)) as Hm.
      pose proof (Nat.le_max_r 1 ((S t + 29) / 30)). nia. }
    destruct (animate_ticks_run 29 (S t) (animate_step (S t)) 0 Hs ltac:(lia) Hc)
      as [Hlast [Hlen [Hall [Hsort Hfuel]]]].
    cbv zeta in *.
    split; [exact Hlast|].
    split; [split; [|exact Hlen]|].
    { destruct (animate_ticks 30 (S t) (animate_step (S t)) 0) eqn:E;
        [exfalso; exact (animate_ticks_nonempty 29 _ _ _ E)|cbn; lia]. }
    split; [eapply Forall_impl; [|exact Hall]; cbn; lia|].
    split; [exact Hsort|exact Hfuel].
Qed.

End AnimateExtra.

(** ** The news monitor *)

Module NewsExtra.
Import NewsWatch Observe.

Lemma watch_op_inv (st : WatchState) (op : WatchOp) :
  liveTimers st = timers_of (newsWatchInterval st) ->
  (newsWatchTarget st = None <-> newsWatchInterval st = None) ->
  liveTimers (watch_op st op) = timers_of (newsWatchInterval (watch_op st op)) /\
  (newsWatchTarget (watch_op st op) = None <-> newsWatchInterval (watch_op st op) = None).
Proof.
  intros Hl Ht.
  assert (Hstop : liveTimers (stopNewsWatch st) = []).
  { unfold stopNewsWatch. cbn [liveTimers]. rewrite Hl.
    destruct (newsWatchInterval st) as [h|]; cbn; [now rewrite Nat.eqb_refl|reflexivity]. }
  destruct op as [t| |t n]; cbn [watch_op].
  - unfold startNewsWatch. cbn [liveTimers newsWatchInterval newsWatchTarget].
    rewrite Hstop. split; [reflexivity|]. split; discriminate.
  - split; [exact Hstop|]. cbn. tauto.
  - exact (conj Hl Ht).
Qed.

Lemma watch_run_inv (ops : list WatchOp) (st : WatchState) :
  liveTimers st = timers_of (newsWatchInterval st) ->
  (newsWatchTarget st = None <-> newsWatchInterval st = None) ->
  liveTimers (watch_run ops st) = timers_of (newsWatchInterval (watch_run ops st)) /\
  (newsWatchTarget (watch_run ops st) = None <-> newsWatchInterval (watch_run ops st) = None).
Proof.
  revert st. induction ops as [|op ops IH]; intros st Hl Ht; [exact (conj Hl Ht)|].
  unfold watch_run in *. cbn [fold_left].
  destruct (watch_op_inv st op Hl Ht) as [Hl' Ht']. exact (IH _ Hl' Ht').
Qed.

(** However often the watch is started and stopped, at most one polling
    interval is alive, and it is the one [_newsWatchInterval] holds:
    [startNewsWatch] never leaks a timer; a target is being watched exactly
    when an interval runs. *)
Theorem news_watch_single_interval (ops : list WatchOp) :
  let st := watch_run ops watch_init in
  liveTimers st = match newsWatchInterval st with Some h => [h] | None => [] end /\
  (newsWatchTarget st = None <-> newsWatchInterval st = None).
Proof. apply watch_run_inv; [reflexivity|split; reflexivity]. Qed.

Lemma last_cons_default (n m : nat) (l : list nat) : last (n :: l) m = last l n.
Proof.
  revert n m. induction l as [|x l IH]; intros n m; [reflexivity|].
  change (last (n :: x :: l) m) with (last (x :: l) m). rewrite (IH x m).
  symmetry. apply IH.
Qed.

Lemma last_ge (d : nat) (l : list nat) : Forall (le d) l -> (d <= last l d)%nat.
Proof.
  intros H. destruct l as [|x l]; [cbn; lia|].
  rewrite Forall_forall in H. apply H.
  assert (Hl : x :: l <> []) by discriminate.
  pose proof (app_removelast_last d Hl) as E.
  rewrite E at 2. apply in_or_app. right. now left.
Qed.

Lemma watch_run_cons (op : WatchOp) (ops : list WatchOp) (st : WatchState) :
  watch_run (op :: ops) st = watch_run ops (watch_op st op).
Proof. reflexivity. Qed.

Lemma results_run (t : string) (totals : list nat) (m : nat) (st : WatchState) :
  lastNewsCount st = m -> (0 < m)%nat -> Forall (le m) totals -> Sorted le totals ->
  let st' := watch_run (map (NewsResult t) totals) st in
  sum_alerts (newsAlerts st') = (sum_alerts (newsAlerts st) + (last totals m - m))%nat /\
  lastNewsCount st' = last totals m.
Proof.
  revert m st. induction totals as [|n rest IH]; intros m st Hm Hpos Hge Hs; cbv zeta.
  - cbn. split; [lia|exact Hm].
  - cbn [map]. rewrite watch_run_cons, last_cons_default.
    inversion Hge as [|? ? Hmn Hrest]; subst.
    apply Sorted_StronglySorted in Hs; [|intros a b c; lia].
    inversion Hs as [|? ? Hs' Hnrest]; subst.
    destruct (IH n (watch_op st (NewsResult t n)) eq_refl ltac:(lia) Hnrest
                 (StronglySorted_Sorted Hs')) as [Hsum Hlast].
    cbv zeta in Hsum, Hlast. rewrite Hsum, Hlast. split; [|reflexivity].
    pose proof (last_ge n rest Hnrest).
    cbn [watch_op news_result newsAlerts].
    destruct ((0 <? lastNewsCount st)%nat && (lastNewsCount st <? n)%nat) eqn:E.
    + apply andb_true_iff in E as [_ E]. apply Nat.ltb_lt in E. cbn [sum_alerts fold_right snd].
      fold (sum_alerts (newsAlerts st)). lia.
    + apply andb_false_iff in E as [E|E]; apply Nat.ltb_ge in E; lia.
Qed.

(** The alerts of one watch add up to the growth of the article count: after
    [startNewsWatch], which empties the alerts of any earlier watch, and
    checks reporting positive, non-decreasing totals t1 <= ... <= tn, the
    new-article counts of the alerts shown sum to tn - t1 (the first check
    only sets the baseline), and the last total is the baseline kept for
    the next check. *)
Theorem news_alerts_telescope (t : string) (totals : list nat) (st : WatchState)
    (Hpos : Forall (fun n => 0 < n)%nat totals) (Hsorted : Sorted le totals) :
  let st' := watch_run (StartWatch t :: map (NewsResult t) totals) st in
  sum_alerts (newsAlerts st') = (last totals 0 - hd 0 totals)%nat /\
  lastNewsCount st' = last totals 0.
Proof.
  cbv zeta. destruct totals as [|n rest].
  - split; reflexivity.
  - cbn [map]. rewrite !watch_run_cons, last_cons_default. cbn [hd].
    inversion Hpos as [|? ? Hn _]; subst.
    apply Sorted_StronglySorted in Hsorted; [|intros a b c; lia].
    inversion Hsorted as [|? ? Hs' Hnrest]; subst.
    destruct (results_run t rest n (watch_op (watch_op st (StartWatch t)) (NewsResult t n))
                eq_refl Hn Hnrest (StronglySorted_Sorted Hs')) as [Hsum Hlast].
    cbv zeta in Hsum, Hlast. rewrite Hsum, Hlast. split; [|reflexivity].
    reflexivity.
Qed.

Lemma news_alerts_telescope_witness :
  let stale := watch_run [StartWatch "Old"; NewsResult "Old" 2; NewsResult "Old" 4] watch_init in
  sum_alerts (newsAlerts stale) = 2%nat /\
  Forall (fun n => 0 < n)%nat [3; 5; 9]%nat /\ Sorted le [3; 5; 9]%nat /\
  (let st' := watch_run (StartWatch "Acme" :: map (NewsResult "Acme") [3; 5; 9]%nat) stale in
   sum_alerts (newsAlerts st') = (last [3; 5; 9] 0 - hd 0 [3; 5; 9])%nat /\
   lastNewsCount st' = last [3; 5; 9]%nat 0).
Proof.
  assert (Hp : Forall (fun n => 0 < n)%nat [3; 5; 9]%nat) by (repeat constructor; lia).
  assert (Hs : Sorted le [3; 5; 9]%nat) by (repeat constructor; lia).
  cbv zeta. split; [reflexivity|]. split; [exact Hp|]. split; [exact Hs|].
  exact (news_alerts_telescope "Acme" [3; 5; 9]%nat _ Hp Hs).
Defined.

End NewsExtra.

(** ** The report file name *)

Module DownloadExtra.
Import App Download Observe.

Lemma safe_char_ok (c : ascii) : is_alnum (safe_char c) || Ascii.eqb (safe_char c) "_" = true.
Proof. unfold safe_char. destruct (is_alnum c) eqn:E; [now rewrite E|reflexivity]. Qed.

Lemma safe_char_idem (c : ascii) : safe_char (safe_char c) = safe_char c.
Proof. unfold safe_char. destruct (is_alnum c) eqn:E; [now rewrite E|reflexivity]. Qed.

Lemma map_string_length (f : ascii -> ascii) (s : string) :
  String.length (map_string f s) = String.length s.
Proof. induction s as [|c s IH]; cbn; [reflexivity|now rewrite IH]. Qed.

Lemma or_else_nonempty (a : option string) (b : string) :
  b <> EmptyString -> Graph.or_else a b <> EmptyString.
Proof.
  intros Hb. unfold Graph.or_else. destruct a as [v|]; [|exact Hb].
  destruct (String.eqb v EmptyString) eqn:E; [exact Hb|]. apply String.eqb_neq, E.
Qed.

(** The file name part taken from the target is safe whatever the target:
    it holds only ASCII letters, digits and underscores (no path separator,
    dot or space), has one character per character of the target (or of
    [report] when there is no target), is never empty, and sanitising it
    again changes nothing. *)
Theorem safeName_sanitized (target : option string) :
  all_chars (fun c => is_alnum c || Ascii.eqb c "_") (safeName target) = true /\
  String.length (safeName target) = String.length (Graph.or_else target "report") /\
  safeName target <> EmptyString /\
  safeName (Some (safeName target)) = safeName target.
Proof.
  assert (Hne : Graph.or_else target "report" <> EmptyString) by (apply or_else_nonempty; discriminate).
  unfold safeName.
  set (v := Graph.or_else target "report") in *.
  split.
  { clear Hne. induction v as [|c v IH]; [reflexivity|]. cbn [map_string all_chars].
    rewrite safe_char_ok. exact IH. }
  split; [apply map_string_length|].
  assert (Hm : map_string safe_char v <> EmptyString).
  { destruct v; [contradiction|discriminate]. }
  split; [exact Hm|].
  unfold Graph.or_else. rewrite (proj2 (String.eqb_neq _ _) Hm).
  clear Hne Hm. induction v as [|c v IH]; [reflexivity|]. cbn [map_string].
  now rewrite safe_char_idem, IH.
Qed.

End DownloadExtra.
